(** * vite-plugin-frontmatter-collection: a shallow embedding of [src/index.ts]

    The plugin scans content files, parses the frontmatter of each one with a
    Zod schema or a hand-written function, and serves the collected entries as
    the body of the virtual module [virtual:frontmatter-collection].

    The embedding keeps the shape of the source: one Rocq definition per
    function of [index.ts], with the same name.  What a run does to the
    outside ([globSync], [readFileSync], gray-matter, the call of the schema
    or of [parseFrontMatter], the console) is recorded in an effect trace,
    and a JavaScript [throw] is an explicit outcome.  [JSON.stringify],
    zod-to-ts and [path.join] are functions of the host. *)

From Stdlib Require Import ZArith Ascii String Sorted.
From stdpp Require Import gmap strings list pretty.

Set Warnings "-register-all".
Local Open Scope string_scope.
Local Open Scope list_scope.
Local Open Scope Z_scope.

(** ** JavaScript values *)

(** The values that can occur in a metadata block and in an entry.  Entries
    are typed [T extends Record<string, any>] by [defineCollection], so
    [undefined] is not an entry; numbers are kept integral, no claim looks
    inside them. *)
Inductive JsValue : Type :=
  | JNull
  | JBool (b : bool)
  | JNumber (n : Z)
  | JString (s : string)
  | JArray (elements : list JsValue)
  | JObject (fields : list (string * JsValue)).

(** An exception value: [new Error(message)] or anything else thrown. *)
Inductive JsThrown : Type :=
  | JsError (message : string)
  | JsOther (thrown : JsValue).

(** The result of running a piece of JavaScript: it returns or it throws. *)
Inductive Outcome (A : Type) : Type :=
  | Return (a : A)
  | Throw (e : JsThrown).
Arguments Return {A} a.
Arguments Throw {A} e.

(** [{ [key: string]: any; filePath: string }]: the object handed to the
    schema or to [parseFrontMatter]. *)
Abbreviation RawFrontmatter := (gmap string JsValue).

(** The entries of a collection ([T = any] in the plugin's own config). *)
Abbreviation Entry := JsValue.

(** ** Collection and plugin configuration *)

(** [ignore?: string | string[]] *)
Inductive IgnorePattern : Type :=
  | IgnoreOne (pattern : string)
  | IgnoreMany (patterns : list string).

(** [z.ZodSchema<T>]: the plugin calls [parse], which returns the validated
    value or throws; [zod-to-ts] reads the definition [_def]. *)
Record ZodSchema : Type := mkZodSchema {
  parse : RawFrontmatter → Outcome Entry;
  _def : JsValue
}.

Record FrontmatterCollectionConfig : Type := mkCollection {
  name : string;
  include : string;
  parseFrontMatter : option (RawFrontmatter → Outcome Entry);
  schema : option ZodSchema;
  sort : option (Entry → Entry → Z);
  filter : option (Entry → bool);
  ignore : option IgnorePattern
}.

Definition defineCollection (collection : FrontmatterCollectionConfig)
  : FrontmatterCollectionConfig := collection.

(** [generateDTS] and [debug] hold their defaults, [true] and [false], when
    the caller leaves them out. *)
Record FrontMatterCollectionPluginConfig : Type := mkPluginConfig {
  collections : list FrontmatterCollectionConfig;
  typesPath : option string;
  generateDTS : bool;
  debug : bool
}.

(** ** Effects *)

(** An argument of [console.log] / [console.error]. *)
Inductive LogArg : Type :=
  | ArgString (s : string)
  | ArgFrontmatter (fm : RawFrontmatter)
  | ArgValue (v : JsValue).

(** What one call of the plugin does to the outside, in order. *)
Inductive Effect : Type :=
  | GlobSync (pattern : string) (ignored : option IgnorePattern)
  | ReadFileSync (file : string)
  | Matter (text : string)
  | SchemaParse (fm : RawFrontmatter)
  | ParseFrontMatter (fm : RawFrontmatter)
  | ConsoleLog (args : list LogArg)
  | ConsoleError (args : list LogArg).

(** A computation: the effects performed, then a return or a throw. *)
Definition M (A : Type) : Type := list Effect * Outcome A.

Global Instance M_ret : MRet M := λ A a, ([], Return a).

Global Instance M_bind : MBind M := λ A B k m,
  match m with
  | (t, Return a) => let '(t', r) := k a in (t ++ t', r)
  | (t, Throw e) => (t, Throw e)
  end.

(** [throw e] *)
Definition throw {A} (e : JsThrown) : M A := ([], Throw e).

(** A call that leaves the plugin: its effect, then what it returned. *)
Definition call {A} (e : Effect) (r : Outcome A) : M A := ([e], r).

(** ** The outside world *)

(** The libraries and the file system the plugin calls.  [readFileSync] and
    [matter] may throw. *)
Class Host : Type := mkHost {
  globSync : string → option IgnorePattern → list string;
  readFileSync : string → Outcome string;
  matter : string → Outcome RawFrontmatter;
  JSON_stringify : list Entry → string;
  (** the [node] of [zodToTs(schema, identifier)], and [printNode(node)] *)
  TsNode : Type;
  zodToTs : ZodSchema → string → TsNode;
  printNode : TsNode → string;
  path_join : string → string → string
}.

(** ** [String.prototype] helpers *)

(** [s.replace(/\\/g, "/")] *)
Fixpoint globsafe (s : string) : string :=
  match s with
  | EmptyString => EmptyString
  | String c rest =>
      String (if Ascii.eqb c "\"%char then "/"%char else c) (globsafe rest)
  end.

(** [s.endsWith(searchString)]: the last [searchString.length] characters of
    [s] are [searchString]; false when [s] is the shorter one. *)
Definition endsWith (s searchString : string) : bool :=
  let start := Z.of_nat (String.length s) - Z.of_nat (String.length searchString) in
  if start <? 0 then false
  else String.eqb
         (substring (Z.to_nat start) (String.length searchString) s)
         searchString.

(** [strings.join(sep)] *)
Fixpoint join (sep : string) (strings : list string) : string :=
  match strings with
  | [] => ""
  | [s] => s
  | s :: rest => s +:+ sep +:+ join sep rest
  end.

(** ** [Array.prototype.sort]

    ECMAScript requires the sort to be stable and leaves the order
    implementation-defined when the comparator is not consistent on the
    values sorted.  The model is the stable insertion sort: an element moves
    in front of exactly those elements the comparator puts strictly before
    it ([comparefn(a, b) > 0] means [b] before [a]).  For a comparator that
    is consistent on the entries this is the order of every engine
    ([Array_sort_unique]); for any other comparator the engine is only
    known to return the same entries in some order, and nothing below says
    more of the model than that.  The entries are defined values: an
    [undefined], which the engine puts last without calling the comparator,
    is no [Entry]. *)
Fixpoint sort_insert (comparefn : Entry → Entry → Z) (a : Entry)
    (sorted : list Entry) : list Entry :=
  match sorted with
  | [] => [a]
  | b :: rest =>
      if comparefn a b >? 0 then b :: sort_insert comparefn a rest
      else a :: b :: rest
  end.

Fixpoint Array_sort (comparefn : Entry → Entry → Z) (entries : list Entry)
  : list Entry :=
  match entries with
  | [] => []
  | a :: rest => sort_insert comparefn a (Array_sort comparefn rest)
  end.

(** ** The plugin *)

Definition virtualModuleId : string := "virtual:frontmatter-collection".

(** ["\0" + id] *)
Definition resolvedVirtualModuleId (id : string) : string :=
  String "000"%char id.

(** A line feed and a double quote, for the template literals. *)
Definition LF : string := String "010"%char "".
Definition DQUOTE : string := String "034"%char "".

(** [try { body } catch (error) { handler }] *)
Definition try_catch {A} (body : M A) (handler : JsThrown → M A) : M A :=
  match body with
  | (t, Return a) => (t, Return a)
  | (t, Throw error) => let '(t', r) := handler error in (t ++ t', r)
  end.

Definition console_log (args : list LogArg) : M unit :=
  call (ConsoleLog args) (Return tt).
Definition console_error (args : list LogArg) : M unit :=
  call (ConsoleError args) (Return tt).

Section frontmatterCollectionPlugin.
Context `{Host}.
(** The destructured argument of [frontmatterCollectionPlugin]. *)
Variable collections : list FrontmatterCollectionConfig.
Variable typesPath : option string.
Variable generateDTS : bool.
Variable debug : bool.

(** The two [catch] blocks of [collectFrontmatterEntries] are the same. *)
Definition report_parse_error (file : string) (error : JsThrown) : M unit :=
  match error with
  | JsError message =>
      console_error
        [ArgString ("‚ùå Error parsing frontmatter in " +:+ file);
         ArgString message]
  | JsOther thrown =>
      console_error
        [ArgString ("‚ùå Error parsing frontmatter in " +:+ file);
         ArgValue thrown]
  end.

(** The body of [for (const file of allFiles)]; [entries.push] appends. *)
Definition collect_file (collection : FrontmatterCollectionConfig)
    (entries : list Entry) (file : string) : M (list Entry) :=
  text ← call (ReadFileSync file) (readFileSync file);
  data ← call (Matter text) (matter text);
  (* { filePath: file, ...data }: the keys of [data] are written last *)
  let frontmatter : RawFrontmatter := data ∪ {["filePath" := JString file]} in
  (if debug then console_log [ArgString file; ArgFrontmatter frontmatter]
   else mret tt);;
  match schema collection with
  | Some schema =>
      try_catch
        (entry ← call (SchemaParse frontmatter) (parse schema frontmatter);
         mret (entries ++ [entry]))
        (λ error, report_parse_error file error;; mret entries)
  | None =>
      match parseFrontMatter collection with
      | Some parseFrontMatter =>
          try_catch
            (entry ← call (ParseFrontMatter frontmatter)
                          (parseFrontMatter frontmatter);
             mret (entries ++ [entry]))
            (λ error, report_parse_error file error;; mret entries)
      | None => mret entries
      end
  end.

Fixpoint for_each_file (collection : FrontmatterCollectionConfig)
    (allFiles : list string) (entries : list Entry) : M (list Entry) :=
  match allFiles with
  | [] => mret entries
  | file :: rest =>
      entries ← collect_file collection entries file;
      for_each_file collection rest entries
  end.

Definition collectFrontmatterEntries
    (collection : FrontmatterCollectionConfig) : M (list Entry) :=
  match schema collection, parseFrontMatter collection with
  | None, None =>
      throw (JsError
        ("You must provide a schema or a parseFrontMatter function for the collection "
         +:+ name collection))
  | _, _ =>
      let pattern := globsafe (include collection) in
      allFiles ← call (GlobSync pattern (ignore collection))
                      (Return (globSync pattern (ignore collection)));
      entries ← for_each_file collection allFiles [];
      let entries :=
        match sort collection with
        | Some comparefn => Array_sort comparefn entries
        | None => entries
        end in
      console_log
        [ArgString ("üóÇÔ∏è Collected " +:+ pretty (length entries) +:+ "/"
                    +:+ pretty (length allFiles) +:+ " entries for "
                    +:+ name collection +:+ " ")];;
      mret entries
  end.

Fixpoint for_each_collection (remaining : list FrontmatterCollectionConfig)
    (exportedEntries : list string) : M (list string) :=
  match remaining with
  | [] => mret exportedEntries
  | collection :: rest =>
      entries ← collectFrontmatterEntries collection;
      for_each_collection rest
        (exportedEntries ++
           ["export const " +:+ name collection +:+ " = "
            +:+ JSON_stringify entries +:+ ";"])
  end.

(** [virtualModuleExports] is the variable of the closure: it is assigned
    only when every collection was collected.  The result is its new value
    and the computation. *)
Definition refreshVirtualModuleContent (virtualModuleExports : option string)
  : option string * M string :=
  let run :=
    exportedEntries ← for_each_collection collections [];
    mret (join LF exportedEntries) in
  match run with
  | (_, Return body) => (Some body, run)
  | (_, Throw _) => (virtualModuleExports, run)
  end.

(** *** The hooks handed to Vite *)

(** The [for] loop of [configResolved]: one declaration per collection
    that has a schema. *)
Fixpoint ambientDeclarations_loop (remaining : list FrontmatterCollectionConfig)
    (ambientDeclarations : list string) : list string :=
  match remaining with
  | [] => ambientDeclarations
  | collection :: rest =>
      match schema collection with
      | Some schema =>
          ambientDeclarations_loop rest
            (ambientDeclarations ++
               ["export const " +:+ name collection +:+ ": "
                +:+ printNode (zodToTs schema (name collection)) +:+ "[];"])
      | None => ambientDeclarations_loop rest ambientDeclarations
      end
  end.

Definition ambiantDeclarationsString : string :=
  "// This file is auto-generated. Do not edit manually." +:+ LF
  +:+ "declare module " +:+ DQUOTE +:+ "virtual:frontmatter-collection"
  +:+ DQUOTE +:+ " {" +:+ LF
  +:+ join LF (ambientDeclarations_loop collections []) +:+ LF
  +:+ "}" +:+ LF.

(** [typesPath ? typesPath : "frontmatter-collection.d.ts"]: the empty
    string is falsy. *)
Definition declarationFullPath (root : string) : string :=
  path_join root
    match typesPath with
    | Some p => if String.eqb p "" then "frontmatter-collection.d.ts" else p
    | None => "frontmatter-collection.d.ts"
    end.

(** [configResolved(resolvedConfig)] on a file system that maps a path to
    the content of the file; [writeFileSync] replaces the content. *)
Definition configResolved (root : string) (fs : gmap string string)
  : gmap string string :=
  if negb generateDTS then fs
  else <[declarationFullPath root := ambiantDeclarationsString]> fs.

Definition resolveId (id : string) : option string :=
  if String.eqb id virtualModuleId
  then Some (resolvedVirtualModuleId virtualModuleId)
  else None.

Definition load (virtualModuleExports : option string) (id : string)
  : option string * M (option string) :=
  if String.eqb id (resolvedVirtualModuleId virtualModuleId)
  then
    let '(exports, run) := refreshVirtualModuleContent virtualModuleExports in
    (exports, body ← run; mret (Some body))
  else (virtualModuleExports, mret None).
End frontmatterCollectionPlugin.

(** *** Hot update *)

(** Vite's module graph, as far as [handleHotUpdate] uses it: a node is found
    by its id and [invalidateModule] marks it stale, so that Vite loads the
    module again when it is next requested. *)
Record ModuleNode : Type := mkModuleNode {
  url : string;
  stale : bool
}.

Record ViteDevServer : Type := mkServer {
  moduleGraph : gmap string ModuleNode
}.

Definition getModuleById (server : ViteDevServer) (id : string)
  : option ModuleNode := moduleGraph server !! id.

(** [invalidateModule(node)], the node being the one stored at [id]. *)
Definition invalidateModule (server : ViteDevServer) (id : string)
  : ViteDevServer :=
  mkServer (alter (λ node, mkModuleNode (url node) true) id (moduleGraph server)).

(** [handleHotUpdate({ server, file, modules })]: the server afterwards and
    the modules returned. *)
Definition handleHotUpdate (server : ViteDevServer) (file : string)
    (modules : list string) : ViteDevServer * list string :=
  if negb (endsWith file ".mdx") then (server, modules)
  else
    match getModuleById server (resolvedVirtualModuleId virtualModuleId) with
    | Some virtualModule =>
        (invalidateModule server (resolvedVirtualModuleId virtualModuleId),
         modules)
    | None => (server, modules)
    end.

(** *** The plugin object *)

(** The hooks [frontmatterCollectionPlugin] returns to Vite. *)
Record Plugin : Type := mkPlugin {
  plugin_name : string;
  plugin_configResolved : string → gmap string string → gmap string string;
  plugin_resolveId : string → option string;
  plugin_load : option string → string → option string * M (option string);
  plugin_handleHotUpdate :
    ViteDevServer → string → list string → ViteDevServer * list string
}.

Definition frontmatterCollectionPlugin `{Host}
    (config : FrontMatterCollectionPluginConfig) : Plugin :=
  {| plugin_name := "vite-plugin-frontmatter-collection";
     plugin_configResolved :=
       configResolved (collections config) (typesPath config)
         (generateDTS config);
     plugin_resolveId := resolveId;
     plugin_load := load (collections config) (debug config);
     plugin_handleHotUpdate := handleHotUpdate |}.

(** ** Reading a trace *)

(** The files read, in order. *)
Definition files_read (t : list Effect) : list string :=
  omap (λ e, match e with ReadFileSync file => Some file | _ => None end) t.

(** The diagnostics written with [console.error], in order. *)
Definition diagnostics (t : list Effect) : list (list LogArg) :=
  omap (λ e, match e with ConsoleError args => Some args | _ => None end) t.

(** The patterns handed to [globSync], in order. *)
Definition globs (t : list Effect) : list (string * option IgnorePattern) :=
  omap (λ e, match e with GlobSync p i => Some (p, i) | _ => None end) t.

(** The objects handed to the schema or to [parseFrontMatter]. *)
Definition handed_to_contract (fm : RawFrontmatter) (t : list Effect) : Prop :=
  SchemaParse fm ∈ t ∨ ParseFrontMatter fm ∈ t.

Definition is_ParseFrontMatter (e : Effect) : bool :=
  match e with ParseFrontMatter _ => true | _ => false end.

(** The diagnostic of a file names the file first. *)
Definition names_file (file : string) (args : list LogArg) : Prop :=
  ∃ prefix rest, args = ArgString (prefix +:+ file) :: rest.

(** ** What a collection says about a file *)

Section contract.
Context `{Host}.

(** The validation or transform in force: the schema when there is one,
    else [parseFrontMatter]. *)
Definition contract (collection : FrontmatterCollectionConfig)
  : option (RawFrontmatter → Outcome Entry) :=
  match schema collection with
  | Some schema => Some (parse schema)
  | None => parseFrontMatter collection
  end.

(** The metadata block of a file that can be read and split. *)
Definition metadata (file : string) : option RawFrontmatter :=
  match readFileSync file with
  | Return text =>
      match matter text with
      | Return data => Some data
      | Throw _ => None
      end
  | Throw _ => None
  end.

(** The entry of a file, when the file can be read and its metadata
    passes the contract. *)
Definition entry_of (collection : FrontmatterCollectionConfig)
    (file : string) : option Entry :=
  data ← metadata file;
  process ← contract collection;
  match process (data ∪ {["filePath" := JString file]}) with
  | Return entry => Some entry
  | Throw _ => None
  end.

(** The metadata of [file] fails the contract of [collection]. *)
Definition fails (collection : FrontmatterCollectionConfig)
    (file : string) : Prop :=
  ∃ data process error,
    metadata file = Some data ∧ contract collection = Some process ∧
    process (data ∪ {["filePath" := JString file]}) = Throw error.
End contract.

(** The files whose metadata does not give an entry. *)
Definition failed `{Host} (collection : FrontmatterCollectionConfig)
    (files : list string) : list string :=
  List.filter
    (λ file, match entry_of collection file with None => true | Some _ => false end)
    files.

(** The last step of [collectFrontmatterEntries]. *)
Definition sorted_by (collection : FrontmatterCollectionConfig)
    (entries : list Entry) : list Entry :=
  match sort collection with
  | Some comparefn => Array_sort comparefn entries
  | None => entries
  end.

(** [comparefn] is a consistent comparison function (ECMAScript,
    Array.prototype.sort): [=CF] is an equivalence, [<CF] and [>CF] are
    transitive. *)
Record consistent_comparator (comparefn : Entry → Entry → Z) : Prop := {
  cf_refl : ∀ a, comparefn a a = 0;
  cf_sym : ∀ a b, comparefn a b = 0 → comparefn b a = 0;
  cf_trans_eq : ∀ a b c,
    comparefn a b = 0 → comparefn b c = 0 → comparefn a c = 0;
  cf_trans_lt : ∀ a b c,
    comparefn a b < 0 → comparefn b c < 0 → comparefn a c < 0;
  cf_trans_gt : ∀ a b c,
    comparefn a b > 0 → comparefn b c > 0 → comparefn a c > 0
}.

(** [a] may stand in front of [b]: the comparator does not want [b] first. *)
Definition may_precede (comparefn : Entry → Entry → Z) (a b : Entry) : Prop :=
  ¬ comparefn a b > 0.

(** No entry stands directly in front of one the comparator wants before
    it. *)
Definition adjacent_in_order (comparefn : Entry → Entry → Z)
    (entries : list Entry) : Prop :=
  ∀ i a b, entries !! i = Some a → entries !! S i = Some b →
    ¬ comparefn a b > 0.

(** The entries that compare equal to [x], in the order they have in
    [entries]. *)
Definition ties (comparefn : Entry → Entry → Z) (x : Entry)
    (entries : list Entry) : list Entry :=
  List.filter (λ y, comparefn x y =? 0) entries.

(** ** The text of the virtual module *)

(** The statement that exports the entries of a collection. *)
Definition exportStatement `{Host} (collection : FrontmatterCollectionConfig)
    (entries : list Entry) : string :=
  "export const " +:+ name collection +:+ " = " +:+ JSON_stringify entries
  +:+ ";".

(** The entries [collectFrontmatterEntries] returns for a collection; no
    entry when it throws. *)
Definition compiled `{Host} (debug : bool)
    (collection : FrontmatterCollectionConfig) : list Entry :=
  match (collectFrontmatterEntries debug collection).2 with
  | Return entries => entries
  | Throw _ => []
  end.

(** The node of the virtual module is marked stale. *)
Definition is_stale (server : ViteDevServer) (id : string) : bool :=
  match getModuleById server id with
  | Some node => stale node
  | None => false
  end.

(** ** Changing one option of a collection *)

Definition set_parseFrontMatter
    (f : option (RawFrontmatter → Outcome Entry))
    (c : FrontmatterCollectionConfig) : FrontmatterCollectionConfig :=
  mkCollection (name c) (include c) f (schema c) (sort c) (filter c) (ignore c).

Definition set_sort (comparefn : option (Entry → Entry → Z))
    (c : FrontmatterCollectionConfig) : FrontmatterCollectionConfig :=
  mkCollection (name c) (include c) (parseFrontMatter c) (schema c)
    comparefn (filter c) (ignore c).

Definition set_filter (predicate : option (Entry → bool))
    (c : FrontmatterCollectionConfig) : FrontmatterCollectionConfig :=
  mkCollection (name c) (include c) (parseFrontMatter c) (schema c)
    (sort c) predicate (ignore c).

(** ** A small project to run the plugin on *)

Module Fixture.
(** [entry[key]] of an object entry. *)
Fixpoint field (key : string) (fields : list (string * JsValue))
  : option JsValue :=
  match fields with
  | [] => None
  | (k, v) :: rest => if String.eqb k key then Some v else field key rest
  end.

(** [z.object({ title: z.string(), date: z.number(), filePath: z.string() })] *)
Definition postSchema : ZodSchema :=
  mkZodSchema
    (λ fm,
       match fm !! "title", fm !! "date", fm !! "filePath" with
       | Some (JString t), Some (JNumber d), Some (JString p) =>
           Return (JObject [("title", JString t); ("date", JNumber d);
                            ("filePath", JString p)])
       | _, _, _ => Throw (JsError "Required")
       end)
    JNull.

(** A hand-written transform that keeps the title only. *)
Definition titleOnly (fm : RawFrontmatter) : Outcome Entry :=
  match fm !! "title" with
  | Some title => Return (JObject [("title", title)])
  | None => Throw (JsOther JNull)
  end.

Definition date_of (entry : Entry) : Z :=
  match entry with
  | JObject fields =>
      match field "date" fields with Some (JNumber d) => d | _ => 0 end
  | _ => 0
  end.

(** Newest first, an entry without a date counting as dated 0.  This is
    the comparator of the README made total: the README's own answers 1
    whenever a date is missing ([Readme.docstringSort] below). *)
Definition dateDescending (a b : Entry) : Z :=
  if date_of a >? date_of b then -1
  else if date_of a =? date_of b then 0 else 1.

(** [JSON.stringify] on the values of this project, whose strings need no
    escaping. *)
Fixpoint stringify (v : JsValue) : string :=
  match v with
  | JNull => "null"
  | JBool b => if b then "true" else "false"
  | JNumber n => pretty n
  | JString s => DQUOTE +:+ s +:+ DQUOTE
  | JArray elements => "[" +:+ join "," (map stringify elements) +:+ "]"
  | JObject fields =>
      "{" +:+ join ","
                (map (λ kv, match kv with
                            | (k, v) =>
                                DQUOTE +:+ k +:+ DQUOTE +:+ ":" +:+ stringify v
                            end) fields)
      +:+ "}"
  end.

Definition files : list (string * (string * RawFrontmatter)) :=
  [("posts/a.mdx",
    ("title: A, date: 1", {["title" := JString "A"; "date" := JNumber 1]}));
   ("posts/bad.mdx",
    ("date: 3", {["date" := JNumber 3]}));
   ("posts/b.mdx",
    ("title: B, date: 2", {["title" := JString "B"; "date" := JNumber 2]}));
   ("posts/c.mdx",
    ("title: C, date: 1", {["title" := JString "C"; "date" := JNumber 1]}));
   ("moved/m.mdx",
    ("title: M, date: 0, filePath: elsewhere.mdx",
     {["title" := JString "M"; "date" := JNumber 0;
       "filePath" := JString "elsewhere.mdx"]}))].

Fixpoint lookup_file (file : string)
    (fs : list (string * (string * RawFrontmatter))) : Outcome string :=
  match fs with
  | [] => Throw (JsError "ENOENT")
  | (f, (text, _)) :: rest =>
      if String.eqb f file then Return text else lookup_file file rest
  end.

Fixpoint lookup_text (text : string)
    (fs : list (string * (string * RawFrontmatter))) : Outcome RawFrontmatter :=
  match fs with
  | [] => Return ∅
  | (_, (t, data)) :: rest =>
      if String.eqb t text then Return data else lookup_text text rest
  end.

Definition glob (pattern : string) (ignored : option IgnorePattern)
  : list string :=
  if String.eqb pattern "posts/*.mdx" then
    match ignored with
    | Some (IgnoreOne "posts/bad.mdx") =>
        ["posts/a.mdx"; "posts/b.mdx"; "posts/c.mdx"]
    | _ => ["posts/a.mdx"; "posts/bad.mdx"; "posts/b.mdx"; "posts/c.mdx"]
    end
  else if String.eqb pattern "moved/*.mdx" then ["moved/m.mdx"]
  else [].

Definition host : Host :=
  mkHost glob
    (λ file, lookup_file file files)
    (λ text, lookup_text text files)
    (λ entries, stringify (JArray entries))
    string
    (λ schema identifier, "{ title: string; date: number; filePath: string; }")
    (λ node, node)
    (λ root p, root +:+ "/" +:+ p).

(** The same project after [posts/gone.mdx] was matched and then deleted. *)
Definition lost : Host :=
  mkHost (λ _ _, ["posts/a.mdx"; "posts/gone.mdx"; "posts/b.mdx"])
    (λ file, lookup_file file files)
    (λ text, lookup_text text files)
    (λ entries, stringify (JArray entries))
    string
    (λ schema identifier, "{ title: string; date: number; filePath: string; }")
    (λ node, node)
    (λ root p, root +:+ "/" +:+ p).

Definition posts : FrontmatterCollectionConfig :=
  mkCollection "posts" "posts/*.mdx" None (Some postSchema) None None None.


Definition titles : FrontmatterCollectionConfig :=
  mkCollection "titles" "posts/*.mdx" (Some titleOnly) None None None None.

Definition empty : FrontmatterCollectionConfig :=
  mkCollection "empty" "nothing/*.mdx" (Some titleOnly) None None None None.

Definition noContract : FrontmatterCollectionConfig :=
  mkCollection "broken" "posts/*.mdx" None None None None None.

(** Written with the separators of Windows. *)
Definition windows : FrontmatterCollectionConfig :=
  mkCollection "posts" "posts\*.mdx" None (Some postSchema) None None
    (Some (IgnoreOne "posts\bad.mdx")).

(** [filter: (a) => a.date > 1] *)
Definition recent (entry : Entry) : bool := date_of entry >? 1.

Definition entryA : Entry :=
  JObject [("title", JString "A"); ("date", JNumber 1);
           ("filePath", JString "posts/a.mdx")].
Definition entryB : Entry :=
  JObject [("title", JString "B"); ("date", JNumber 2);
           ("filePath", JString "posts/b.mdx")].
Definition entryC : Entry :=
  JObject [("title", JString "C"); ("date", JNumber 1);
           ("filePath", JString "posts/c.mdx")].
End Fixture.

(** ** Comparators that are consistent on the entries sorted *)

(** [comparefn] is a consistent comparison function for the values [S]
    (ECMAScript, Array.prototype.sort): on [S], [=CF] is an equivalence and
    [<CF] and [>CF] are transitive. *)
Record consistent_on (comparefn : Entry → Entry → Z) (S : list Entry)
  : Prop := {
  on_refl : ∀ a, a ∈ S → comparefn a a = 0;
  on_sym : ∀ a b, a ∈ S → b ∈ S → comparefn a b = 0 → comparefn b a = 0;
  on_trans_eq : ∀ a b c, a ∈ S → b ∈ S → c ∈ S →
    comparefn a b = 0 → comparefn b c = 0 → comparefn a c = 0;
  on_trans_lt : ∀ a b c, a ∈ S → b ∈ S → c ∈ S →
    comparefn a b < 0 → comparefn b c < 0 → comparefn a c < 0;
  on_trans_gt : ∀ a b c, a ∈ S → b ∈ S → c ∈ S →
    comparefn a b > 0 → comparefn b c > 0 → comparefn a c > 0
}.

Module Readme.
(** [new Date(a.date ?? "").getTime()] for an entry whose date is a number
    of milliseconds: that number.  [None] stands for NaN, the time of an
    entry without a date; a date written as text is not modelled and
    counts as none. *)
Definition getTime (entry : Entry) : option Z :=
  match entry with
  | JObject fields =>
      match Fixture.field "date" fields with
      | Some (JNumber d) => Some d
      | _ => None
      end
  | _ => None
  end.

(** The comparator of the docstring of [sort] and of the README:
    [aTime > bTime ? -1 : aTime === bTime ? 0 : 1].  Both tests are false
    when a time is NaN, so the answer is then 1. *)
Definition docstringSort (a b : Entry) : Z :=
  match getTime a, getTime b with
  | Some aTime, Some bTime =>
      if aTime >? bTime then -1 else if aTime =? bTime then 0 else 1
  | _, _ => 1
  end.
End Readme.

(** ** A project given by an absolute pattern *)


Module Site.
(** glob gives absolute paths for an absolute pattern. *)
Definition glob (pattern : string) (ignored : option IgnorePattern)
  : list string :=
  if String.eqb pattern "/srv/site/posts/*.mdx"
  then ["/srv/site/posts/a.mdx"]
  else [].

Definition read (file : string) : Outcome string :=
  if String.eqb file "/srv/site/posts/a.mdx"
  then Return "title: A, date: 1"
  else Throw (JsError "ENOENT").

Definition host : Host :=
  mkHost glob read
    (λ text, Fixture.lookup_text text Fixture.files)
    (λ entries, Fixture.stringify (JArray entries))
    string
    (λ schema identifier, "{ title: string; date: number; filePath: string; }")
    (λ node, node)
    (λ root p, root +:+ "/" +:+ p).

Definition posts : FrontmatterCollectionConfig :=
  mkCollection "posts" "/srv/site/posts/*.mdx" None (Some Fixture.postSchema)
    None None None.
End Site.

(** ** More ways to read a run *)

(** The diagnostic [collectFrontmatterEntries] writes for a file whose
    metadata fails the contract: the file, then the message of the [Error]
    or the value thrown. *)
Definition diagnostic_of `{Host} (collection : FrontmatterCollectionConfig)
    (file : string) : option (list LogArg) :=
  data ← metadata file;
  process ← contract collection;
  match process (data ∪ {["filePath" := JString file]}) with
  | Return _ => None
  | Throw (JsError message) =>
      Some [ArgString ("‚ùå Error parsing frontmatter in " +:+ file);
            ArgString message]
  | Throw (JsOther thrown) =>
      Some [ArgString ("‚ùå Error parsing frontmatter in " +:+ file);
            ArgValue thrown]
  end.

Definition is_ConsoleLog (e : Effect) : bool :=
  match e with ConsoleLog _ => true | _ => false end.

(** A trace without what [console.log] wrote. *)
Definition without_logs (t : list Effect) : list Effect :=
  List.filter (λ e, negb (is_ConsoleLog e)) t.

(** The call of [globSync] a collection makes. *)
Definition glob_call (collection : FrontmatterCollectionConfig)
  : string * option IgnorePattern :=
  (globsafe (include collection), ignore collection).

(** The last thing a run of [collectFrontmatterEntries] writes: how many
    entries it kept out of how many files. *)
Definition collected_log (collection : FrontmatterCollectionConfig)
    (entries : list Entry) (allFiles : list string) : Effect :=
  ConsoleLog
    [ArgString ("üóÇÔ∏è Collected " +:+ pretty (length entries) +:+ "/"
                +:+ pretty (length allFiles) +:+ " entries for "
                +:+ name collection +:+ " ")].

(** The objects the schema or [parseFrontMatter] was called with, in
    order. *)
Definition contract_calls (t : list Effect) : list RawFrontmatter :=
  omap (λ e, match e with
             | SchemaParse fm | ParseFrontMatter fm => Some fm
             | _ => None
             end) t.


(** * Properties *)

(** ** The plugin on the fixture *)

Example endsWith_examples :
  endsWith "posts/a.mdx" ".mdx" = true ∧ endsWith ".mdx" ".mdx" = true
  ∧ endsWith "posts/a.md" ".mdx" = false ∧ endsWith "mdx" ".mdx" = false
  ∧ endsWith "posts/a.MDX" ".mdx" = false
  ∧ endsWith "posts/a.mdx.bak" ".mdx" = false.
Proof. by vm_compute. Qed.

Example globsafe_example :
  globsafe "app\routes\blog/*.mdx" = "app/routes/blog/*.mdx".
Proof. reflexivity. Qed.

Example join_examples :
  join ", " [] = "" ∧ join ", " ["a"] = "a"
  ∧ join ", " ["a"; "b"; "c"] = "a, b, c".
Proof. by vm_compute. Qed.

Example Array_sort_example :
  Array_sort Fixture.dateDescending
    [Fixture.entryA; Fixture.entryB; Fixture.entryC]
  = [Fixture.entryB; Fixture.entryA; Fixture.entryC].
Proof. reflexivity. Qed.

Example collect_posts :
  (collectFrontmatterEntries (H := Fixture.host) false Fixture.posts).2
  = Return [Fixture.entryA; Fixture.entryB; Fixture.entryC]
  ∧ files_read
      (collectFrontmatterEntries (H := Fixture.host) false Fixture.posts).1
    = ["posts/a.mdx"; "posts/bad.mdx"; "posts/b.mdx"; "posts/c.mdx"]
  ∧ diagnostics
      (collectFrontmatterEntries (H := Fixture.host) false Fixture.posts).1
    = [[ArgString "‚ùå Error parsing frontmatter in posts/bad.mdx";
        ArgString "Required"]].
Proof. by vm_compute. Qed.

Example collect_unreadable :
  (collectFrontmatterEntries (H := Fixture.lost) false Fixture.posts).2
  = Throw (JsError "ENOENT")
  ∧ files_read
      (collectFrontmatterEntries (H := Fixture.lost) false Fixture.posts).1
    = ["posts/a.mdx"; "posts/gone.mdx"].
Proof. by vm_compute. Qed.

Example resolveId_examples :
  resolveId "virtual:frontmatter-collection"
  = Some (String "000"%char "virtual:frontmatter-collection")
  ∧ resolveId "virtual:other" = None.
Proof. by vm_compute. Qed.

Example load_other_module :
  load (H := Fixture.host) [Fixture.posts] false None "src/main.ts"
  = (None, ([], Return None)).
Proof. reflexivity. Qed.

Example declaration_file :
  configResolved (H := Fixture.host) [Fixture.posts; Fixture.titles] None true
    "/project" ∅ !! "/project/frontmatter-collection.d.ts"
  = Some ("// This file is auto-generated. Do not edit manually." +:+ LF
          +:+ "declare module " +:+ DQUOTE +:+ "virtual:frontmatter-collection"
          +:+ DQUOTE +:+ " {" +:+ LF
          +:+ "export const posts: { title: string; date: number; filePath: string; }[];"
          +:+ LF +:+ "}" +:+ LF).
Proof. by vm_compute. Qed.

Example plugin_hooks :
  let plugin :=
    frontmatterCollectionPlugin (H := Fixture.host)
      (mkPluginConfig [Fixture.empty] None true false) in
  plugin_name plugin = "vite-plugin-frontmatter-collection"
  ∧ plugin_resolveId plugin virtualModuleId
    = Some (resolvedVirtualModuleId virtualModuleId)
  ∧ (plugin_load plugin None (resolvedVirtualModuleId virtualModuleId)).1
    = Some "export const empty = [];".
Proof. by vm_compute. Qed.

Example hot_update_examples :
  let id := resolvedVirtualModuleId virtualModuleId in
  let server := mkServer {[id := mkModuleNode "/@id/__x00__virtual" false]} in
  is_stale (handleHotUpdate server "posts/a.mdx" []).1 id = true
  ∧ is_stale (handleHotUpdate server "src/main.ts" []).1 id = false
  ∧ (handleHotUpdate (mkServer ∅) "posts/a.mdx" ["m"]) = (mkServer ∅, ["m"]).
Proof. by vm_compute. Qed.

(** ** Strings *)

Lemma substring_whole (t : string) : substring 0 (String.length t) t = t.
Proof. induction t as [|c t IH]; simpl; [done | by rewrite IH]. Qed.

Lemma substring_suffix (p t : string) :
  substring (String.length p) (String.length t) (p +:+ t) = t.
Proof. induction p as [|c p IH]; simpl; [apply substring_whole | exact IH]. Qed.

Lemma length_append (p t : string) :
  String.length (p +:+ t) = (String.length p + String.length t)%nat.
Proof. induction p as [|c p IH]; simpl; [done | by rewrite IH]. Qed.

Lemma substring_split (n m : nat) (s : string) :
  (n + m)%nat = String.length s →
  ∃ p, s = p +:+ substring n m s ∧ String.length p = n.
Proof.
  revert s. induction n as [|n IH]; intros s Hlen.
  - exists "". split; [|done]. simpl in *. subst m.
    by rewrite substring_whole.
  - destruct s as [|c s]; [done|]. simpl in Hlen.
    destruct (IH s) as (p & Hp & Hl); [lia|].
    exists (String c p). split; [|simpl; by rewrite Hl].
    change (String c s = String c (p +:+ substring n m s)). by rewrite <- Hp.
Qed.

(** [endsWith] is the suffix test. *)
Lemma endsWith_spec (s t : string) :
  endsWith s t = true ↔ ∃ p, s = p +:+ t.
Proof.
  unfold endsWith. split.
  - destruct (Z.ltb_spec (Z.of_nat (String.length s) - Z.of_nat (String.length t)) 0)
      as [|Hle]; [done|].
    intros Heq%String.eqb_eq.
    destruct (substring_split
                (Z.to_nat (Z.of_nat (String.length s) - Z.of_nat (String.length t)))
                (String.length t) s) as (p & Hp & _); [lia|].
    exists p. by rewrite Heq in Hp.
  - intros [p ->]. rewrite length_append.
    destruct (Z.ltb_spec (Z.of_nat (String.length p + String.length t)
                          - Z.of_nat (String.length t)) 0); [lia|].
    replace (Z.to_nat _) with (String.length p) by lia.
    rewrite substring_suffix. apply String.eqb_refl.
Qed.

(** [globsafe] leaves no backslash and keeps every other character. *)
Lemma globsafe_no_backslash (s : string) :
  "\"%char ∉ list_ascii_of_string (globsafe s).
Proof.
  induction s as [|c s IH]; simpl; [apply not_elem_of_nil|].
  apply not_elem_of_cons. split; [|done].
  destruct (Ascii.eqb_spec c "\"%char); [done | congruence].
Qed.

Lemma globsafe_length (s : string) :
  String.length (globsafe s) = String.length s.
Proof. induction s; simpl; congruence. Qed.

(** ** [Array.prototype.sort] *)

Section sorting.
Variable comparefn : Entry → Entry → Z.

Lemma sort_insert_perm (a : Entry) (l : list Entry) :
  sort_insert comparefn a l ≡ₚ a :: l.
Proof.
  induction l as [|b l IH]; simpl; [done|].
  destruct (comparefn a b >? 0); [|done].
  by rewrite IH, Permutation_swap.
Qed.

Lemma Array_sort_perm (l : list Entry) : Array_sort comparefn l ≡ₚ l.
Proof.
  induction l as [|a l IH]; simpl; [done|].
  by rewrite sort_insert_perm, IH.
Qed.

Lemma Array_sort_length (l : list Entry) :
  length (Array_sort comparefn l) = length l.
Proof. by rewrite Array_sort_perm. Qed.

Lemma Sorted_adjacent (l : list Entry) :
  Sorted (may_precede comparefn) l → adjacent_in_order comparefn l.
Proof.
  induction 1 as [|a l Hs IH Hhd]; intros i x y Hx Hy; [done|].
  destruct i as [|i]; simpl in *.
  - destruct l as [|b l]; simplify_eq/=. by inversion Hhd.
  - by eapply IH.
Qed.

Hypothesis consistent : consistent_comparator comparefn.

Lemma cf_gt_flip (a b : Entry) : comparefn a b > 0 → comparefn b a < 0.
Proof.
  intros Hab. destruct (Z.lt_trichotomy (comparefn b a) 0) as [|[Heq|Hgt]];
    [done| |].
  - apply (cf_sym _ consistent) in Heq. lia.
  - pose proof (cf_trans_gt _ consistent a b a Hab ltac:(lia)).
    pose proof (cf_refl _ consistent a). lia.
Qed.

Lemma cf_lt_flip (a b : Entry) : comparefn a b < 0 → comparefn b a > 0.
Proof.
  intros Hab. destruct (Z.lt_trichotomy (comparefn b a) 0) as [Hlt|[Heq|]];
    [| |lia].
  - pose proof (cf_trans_lt _ consistent a b a Hab Hlt).
    pose proof (cf_refl _ consistent a). lia.
  - apply (cf_sym _ consistent) in Heq. lia.
Qed.

Lemma may_precede_trans (a b c : Entry) :
  may_precede comparefn a b → may_precede comparefn b c →
  may_precede comparefn a c.
Proof.
  unfold may_precede. intros Hab Hbc Hac.
  pose proof (cf_gt_flip _ _ Hac) as Hca.
  destruct (Z.lt_trichotomy (comparefn a b) 0) as [Hlt|[Heq|]]; [| |lia].
  - pose proof (cf_trans_lt _ consistent c a b Hca Hlt) as Hcb.
    apply cf_lt_flip in Hcb. lia.
  - destruct (Z.lt_trichotomy (comparefn b c) 0) as [Hlt|[Heq'|]]; [| |lia].
    + pose proof (cf_trans_lt _ consistent b c a Hlt Hca) as Hba.
      apply (cf_sym _ consistent) in Heq. lia.
    + pose proof (cf_trans_eq _ consistent a b c Heq Heq'). lia.
Qed.

Lemma sort_insert_sorted (a : Entry) (l : list Entry) :
  Sorted (may_precede comparefn) l → Sorted (may_precede comparefn) (sort_insert comparefn a l).
Proof.
  induction 1 as [|b l Hs IH Hhd]; simpl.
  - by repeat constructor.
  - destruct (Z.gtb_spec (comparefn a b) 0) as [Hgt|Hle].
    + assert (comparefn b a < 0) by (apply cf_gt_flip; lia).
      constructor; [done|].
      destruct l as [|c l]; simpl in *.
      * constructor. unfold may_precede. lia.
      * destruct (comparefn a c >? 0).
        -- constructor. by inversion Hhd.
        -- constructor. unfold may_precede. lia.
    + constructor; [by constructor|]. constructor. unfold may_precede. lia.
Qed.

Lemma Array_sort_sorted (l : list Entry) :
  Sorted (may_precede comparefn) (Array_sort comparefn l).
Proof.
  induction l as [|a l IH]; simpl; [constructor|].
  by apply sort_insert_sorted.
Qed.

(** Every entry of the output may precede every later one. *)
Lemma Array_sort_strongly_sorted (l : list Entry) :
  StronglySorted (may_precede comparefn) (Array_sort comparefn l).
Proof.
  apply Sorted_StronglySorted; [|apply Array_sort_sorted].
  intros a b c. apply may_precede_trans.
Qed.

Lemma ties_sort_insert (x a : Entry) (l : list Entry) :
  ties comparefn x (sort_insert comparefn a l) = ties comparefn x (a :: l).
Proof.
  unfold ties. induction l as [|b l IH]; simpl; [done|].
  destruct (Z.gtb_spec (comparefn a b) 0) as [Hgt|Hle]; [|done].
  simpl in *. rewrite IH.
  destruct (Z.eqb_spec (comparefn x a) 0) as [Hxa|];
    destruct (Z.eqb_spec (comparefn x b) 0) as [Hxb|]; try done.
  apply (cf_sym _ consistent) in Hxa.
  pose proof (cf_trans_eq _ consistent a x b Hxa Hxb). lia.
Qed.

(** Stability: entries that compare equal keep their order. *)
Lemma Array_sort_stable (x : Entry) (l : list Entry) :
  ties comparefn x (Array_sort comparefn l) = ties comparefn x l.
Proof.
  induction l as [|a l IH]; simpl; [done|].
  rewrite ties_sort_insert. unfold ties in *. simpl. by rewrite IH.
Qed.

(** The model is no choice among several: for a consistent comparator
    there is one ordered, stable rearrangement, so every stable sort
    returns what [Array_sort] returns. *)
Lemma Array_sort_unique (l out : list Entry) :
  out ≡ₚ l →
  StronglySorted (may_precede comparefn) out →
  (∀ x, ties comparefn x out = ties comparefn x l) →
  out = Array_sort comparefn l.
Proof.
  intros Hperm Hsorted Hties.
  assert (∀ l1 l2 : list Entry,
            l1 ≡ₚ l2 →
            StronglySorted (may_precede comparefn) l1 →
            StronglySorted (may_precede comparefn) l2 →
            (∀ x, ties comparefn x l1 = ties comparefn x l2) →
            l1 = l2) as Huniq.
  { induction l1 as [|a l1 IH]; intros l2 Hp Hs1 Hs2 Ht.
    - by apply Permutation_nil_l in Hp.
    - destruct l2 as [|b l2]; [by apply Permutation_nil_r in Hp|].
      apply StronglySorted_inv in Hs1 as [Hs1 Ha].
      apply StronglySorted_inv in Hs2 as [Hs2 Hb].
      assert (comparefn a b = 0) as Hab.
      { assert (may_precede comparefn a b) as H1.
        { assert (b ∈ a :: l1) as Hin
            by (rewrite Hp; apply list_elem_of_here).
          apply elem_of_cons in Hin as [->|Hin].
          - unfold may_precede. rewrite (cf_refl _ consistent). lia.
          - rewrite Forall_forall in Ha. by apply Ha. }
        assert (may_precede comparefn b a) as H2.
        { assert (a ∈ b :: l2) as Hin
            by (rewrite <- Hp; apply list_elem_of_here).
          apply elem_of_cons in Hin as [->|Hin].
          - unfold may_precede. rewrite (cf_refl _ consistent). lia.
          - rewrite Forall_forall in Hb. by apply Hb. }
        unfold may_precede in *.
        destruct (Z.lt_trichotomy (comparefn a b) 0) as [Hlt|[?|?]];
          [|done|lia].
        apply cf_lt_flip in Hlt. lia. }
      pose proof (Ht a) as Hta. unfold ties in Hta. simpl in Hta.
      rewrite (cf_refl _ consistent), Hab in Hta. simpl in Hta.
      injection Hta as <- _. f_equal.
      apply IH; [by eapply Permutation_cons_inv | done | done |].
      intros x. specialize (Ht x). unfold ties in *. simpl in Ht.
      destruct (comparefn x a =? 0); [by injection Ht|done]. }
  apply Huniq; [|done|apply Array_sort_strongly_sorted|].
  - by rewrite Array_sort_perm.
  - intros x. by rewrite Array_sort_stable.
Qed.
End sorting.

(** ** Collecting the entries of one collection *)

Section collecting.
Context `{Host}.
Variable debug : bool.

Lemma report_parse_error_run (file : string) (error : JsThrown) :
  ∃ args, report_parse_error file error = ([ConsoleError args], Return tt)
          ∧ names_file file args.
Proof.
  destruct error; eexists; (split; [reflexivity|]); by eexists _, _.
Qed.

Lemma metadata_Some (file : string) (data : RawFrontmatter) :
  metadata file = Some data →
  ∃ text, readFileSync file = Return text ∧ matter text = Return data.
Proof.
  unfold metadata. destruct (readFileSync file) as [text|]; [|done].
  destruct (matter text) eqn:Hm; [|done]. intros [= <-]. by exists text.
Qed.

(** One turn of the loop on a file whose metadata can be extracted. *)
Lemma collect_file_run collection process entries file data :
  contract collection = Some process →
  metadata file = Some data →
  ∃ t, collect_file debug collection entries file
         = (t, Return (entries ++ option_list (entry_of collection file)))
       ∧ files_read t = [file]
       ∧ globs t = []
       ∧ Forall2 names_file (failed collection [file]) (diagnostics t)
       ∧ (∀ fm, handed_to_contract fm t →
                fm = data ∪ {["filePath" := JString file]})
       ∧ (is_Some (schema collection) →
          Forall (λ e, is_ParseFrontMatter e = false) t).
Proof.
  intros Hc Hm. unfold failed, entry_of. simpl. rewrite Hm, Hc. simpl.
  apply metadata_Some in Hm as (text & Hr & Hm).
  unfold collect_file, call, console_log, mbind, M_bind, mret, M_ret.
  rewrite Hr, Hm. simpl.
  unfold contract in Hc.
  assert (∀ fm t0, handed_to_contract fm
            (ReadFileSync file :: Matter text :: t0) →
            handed_to_contract fm t0) as Hskip.
  { intros fm t0 [Hin|Hin]; [left|right];
      repeat (apply elem_of_cons in Hin as [?|Hin]; [done|]); done. }
  destruct debug; simpl;
    destruct (schema collection) as [sch|]; simplify_eq/=.
  all: try (destruct (parseFrontMatter collection) as [pf|]; simplify_eq/=).
  all: unfold try_catch, call; simpl.
  all: match goal with
       | |- context [option_list (match ?x with _ => _ end)] =>
           destruct x as [entry|error] eqn:Hp
       end; simpl.
  all: try (destruct (report_parse_error_run file error) as (args & -> & Hn);
            simpl).
  all: rewrite ?app_nil_r.
  all: eexists; split; [reflexivity|]; simpl.
  all: repeat split; try done.
  all: try (by repeat constructor).
  all: try (intros _; by repeat constructor).
  all: intros fm Hin%Hskip; destruct Hin as [Hin|Hin];
    repeat (apply elem_of_cons in Hin as [Heq|Hin]; [by simplify_eq|]);
    by apply elem_of_nil in Hin.
Qed.

Lemma handed_to_contract_app fm (t1 t2 : list Effect) :
  handed_to_contract fm (t1 ++ t2) ↔
  handed_to_contract fm t1 ∨ handed_to_contract fm t2.
Proof. unfold handed_to_contract. rewrite !elem_of_app. tauto. Qed.

(** The whole loop, when the metadata of every file can be extracted:
    no file stops it. *)
Lemma for_each_file_run collection process files entries :
  contract collection = Some process →
  Forall (λ file, is_Some (metadata file)) files →
  ∃ t, for_each_file debug collection files entries
         = (t, Return (entries ++ omap (entry_of collection) files))
       ∧ files_read t = files
       ∧ globs t = []
       ∧ Forall2 names_file (failed collection files) (diagnostics t)
       ∧ (∀ fm, handed_to_contract fm t →
                ∃ file data, file ∈ files ∧ metadata file = Some data ∧
                             fm = data ∪ {["filePath" := JString file]})
       ∧ (is_Some (schema collection) →
          Forall (λ e, is_ParseFrontMatter e = false) t).
Proof.
  intros Hc Hall. revert entries.
  induction Hall as [|file files [data Hm] _ IH]; intros entries.
  - exists []. simpl. rewrite app_nil_r.
    split; [done|]. split; [done|]. split; [done|].
    split; [constructor|]. split; [|by constructor].
    intros fm [Hin|Hin]; by apply elem_of_nil in Hin.
  - destruct (collect_file_run collection process entries file data Hc Hm)
      as (t1 & Hrun & Hread & Hglob & Hdiag & Hfm & Hpf).
    destruct (IH (entries ++ option_list (entry_of collection file)))
      as (t2 & Hrun2 & Hread2 & Hglob2 & Hdiag2 & Hfm2 & Hpf2).
    exists (t1 ++ t2). simpl. unfold mbind, M_bind. rewrite Hrun, Hrun2.
    split; [|split; [|split; [|split; [|split]]]].
    + f_equal. f_equal. rewrite <- app_assoc. f_equal.
      by destruct (entry_of collection file).
    + unfold files_read in *. by rewrite omap_app, Hread, Hread2.
    + unfold globs in *. by rewrite omap_app, Hglob, Hglob2.
    + unfold diagnostics, failed in *. rewrite omap_app. simpl in *.
      destruct (entry_of collection file);
        exact (Forall2_app Hdiag Hdiag2).
    + intros fm [Hin|Hin]%handed_to_contract_app.
      * exists file, data. split; [apply elem_of_cons; by left|].
        by split; [|apply Hfm].
      * destruct (Hfm2 fm Hin) as (f & d & ? & ? & ?).
        exists f, d. split; [apply elem_of_cons; by right|done].
    + intros Hs. apply Forall_app. split; auto.
Qed.

(** [collectFrontmatterEntries] returns whenever the collection has a
    contract and the metadata of every matched file can be extracted: the
    entries of the files that pass, in the order of the files, then
    sorted. *)
Lemma collectFrontmatterEntries_run collection process :
  contract collection = Some process →
  let allFiles :=
    globSync (globsafe (include collection)) (ignore collection) in
  Forall (λ file, is_Some (metadata file)) allFiles →
  ∃ t, collectFrontmatterEntries debug collection
         = (t, Return (sorted_by collection
                         (omap (entry_of collection) allFiles)))
       ∧ files_read t = allFiles
       ∧ globs t = [(globsafe (include collection), ignore collection)]
       ∧ Forall2 names_file (failed collection allFiles) (diagnostics t)
       ∧ (∀ fm, handed_to_contract fm t →
                ∃ file data, file ∈ allFiles ∧ metadata file = Some data ∧
                             fm = data ∪ {["filePath" := JString file]})
       ∧ (is_Some (schema collection) →
          Forall (λ e, is_ParseFrontMatter e = false) t).
Proof.
  intros Hc allFiles Hall.
  destruct (for_each_file_run collection process allFiles [] Hc Hall)
    as (t & Hrun & Hread & Hglob & Hdiag & Hfm & Hpf).
  eexists (GlobSync _ _ :: t ++ [ConsoleLog _]).
  split; [|split; [|split; [|split; [|split]]]].
  - unfold collectFrontmatterEntries, contract in *.
    assert (for_each_file debug collection
              (globSync (globsafe (include collection)) (ignore collection)) []
            = (t, Return (omap (entry_of collection) allFiles))) as Hrun'
      by exact Hrun.
    destruct (schema collection), (parseFrontMatter collection); try done.
    all: unfold call, console_log, mbind, M_bind, mret, M_ret; simpl.
    all: rewrite Hrun'; simpl; rewrite ?app_nil_r; reflexivity.
  - unfold files_read in *. simpl. rewrite omap_app. simpl.
    by rewrite app_nil_r.
  - unfold globs in *. simpl. rewrite omap_app, Hglob. done.
  - unfold diagnostics in *. simpl. rewrite omap_app. simpl.
    by rewrite app_nil_r.
  - intros fm Hin. apply Hfm. destruct Hin as [Hin|Hin]; [left|right].
    all: apply elem_of_cons in Hin as [?|Hin]; [done|].
    all: apply elem_of_app in Hin as [?|Hin]; [done|].
    all: by apply list_elem_of_singleton in Hin.
  - intros Hs. constructor; [done|]. apply Forall_app. split; [auto|].
    by repeat constructor.
Qed.

(** *** What holds of every run, also of one that throws *)

Lemma bind_run {A B} (m : M A) (k : A → M B) :
  (m ≫= k) =
  match m.2 with
  | Return a => (m.1 ++ (k a).1, (k a).2)
  | Throw e => (m.1, Throw e)
  end.
Proof.
  destruct m as [t [a|e]]; simpl; [|done].
  unfold mbind, M_bind. by destruct (k a).
Qed.

Lemma collect_file_any collection entries file :
  let run := collect_file debug collection entries file in
  (∀ fm, handed_to_contract fm run.1 →
         ∃ data, metadata file = Some data ∧
                 fm = data ∪ {["filePath" := JString file]})
  ∧ (is_Some (schema collection) →
     Forall (λ e, is_ParseFrontMatter e = false) run.1)
  ∧ (∀ out, run.2 = Return out → is_Some (metadata file)).
Proof.
  unfold collect_file, metadata, call, console_log, handed_to_contract.
  unfold mbind, M_bind, mret, M_ret.
  destruct (readFileSync file) as [text|e]; simpl.
  2:{ split; [|split]; [| by repeat constructor | done].
      intros fm [Hin|Hin];
        repeat (apply elem_of_cons in Hin as [?|Hin]; [done|]);
        by apply elem_of_nil in Hin. }
  destruct (matter text) as [data|e]; simpl.
  2:{ split; [|split]; [| by repeat constructor | done].
      intros fm [Hin|Hin];
        repeat (apply elem_of_cons in Hin as [?|Hin]; [done|]);
        by apply elem_of_nil in Hin. }
  destruct debug; simpl;
    destruct (schema collection) as [sch|]; simpl.
  all: try (destruct (parseFrontMatter collection) as [pf|]; simpl).
  all: unfold try_catch; simpl.
  all: try (destruct (parse sch _) as [entry|error]; simpl).
  all: try (destruct (pf _) as [entry|error]; simpl).
  all: try (destruct (report_parse_error_run file error) as (args & -> & Hn);
            simpl).
  all: split; [|split]; [| try (by intros [? [=]]) | by eauto].
  all: try (intros _; by repeat constructor).
  all: intros fm [Hin|Hin];
    repeat (apply elem_of_cons in Hin as [Heq|Hin];
            [try done; simplify_eq; by eexists|]);
    by apply elem_of_nil in Hin.
Qed.

Lemma for_each_file_any collection files entries :
  let run := for_each_file debug collection files entries in
  (∀ fm, handed_to_contract fm run.1 →
         ∃ file data, file ∈ files ∧ metadata file = Some data ∧
                      fm = data ∪ {["filePath" := JString file]})
  ∧ (is_Some (schema collection) →
     Forall (λ e, is_ParseFrontMatter e = false) run.1)
  ∧ (∀ out, run.2 = Return out →
            Forall (λ file, is_Some (metadata file)) files).
Proof.
  revert entries. induction files as [|file files IH]; intros entries; simpl.
  - split; [|split]; [|by constructor|by constructor].
    intros fm [Hin|Hin]; by apply elem_of_nil in Hin.
  - rewrite bind_run.
    destruct (collect_file_any collection entries file) as (Hfm & Hpf & Hret).
    destruct (collect_file debug collection entries file) as [t1 [acc|e]];
      simpl in *.
    + destruct (IH acc) as (Hfm2 & Hpf2 & Hret2).
      split; [|split].
      * intros fm [Hin|Hin]%handed_to_contract_app.
        -- destruct (Hfm fm Hin) as (data & ? & ?).
           exists file, data. split; [apply elem_of_cons; by left|done].
        -- destruct (Hfm2 fm Hin) as (f & d & ? & ? & ?).
           exists f, d. split; [apply elem_of_cons; by right|done].
      * intros Hs. apply Forall_app. split; auto.
      * intros out Hout. constructor; eauto.
    + split; [|split]; [|done|done].
      intros fm Hin. destruct (Hfm fm Hin) as (data & ? & ?).
      exists file, data. split; [apply elem_of_cons; by left|done].
Qed.

Lemma collectFrontmatterEntries_any collection :
  let run := collectFrontmatterEntries debug collection in
  let allFiles :=
    globSync (globsafe (include collection)) (ignore collection) in
  (∀ fm, handed_to_contract fm run.1 →
         ∃ file data, file ∈ allFiles ∧ metadata file = Some data ∧
                      fm = data ∪ {["filePath" := JString file]})
  ∧ (is_Some (schema collection) →
     Forall (λ e, is_ParseFrontMatter e = false) run.1)
  ∧ (∀ out, run.2 = Return out →
            is_Some (contract collection) ∧
            Forall (λ file, is_Some (metadata file)) allFiles).
Proof.
  intros run allFiles. subst run.
  destruct (for_each_file_any collection allFiles []) as (Hfm & Hpf & Hret).
  assert (∀ fm, handed_to_contract fm [] → False) as Hnil.
  { intros fm [Hin|Hin]; by apply elem_of_nil in Hin. }
  unfold collectFrontmatterEntries, contract.
  destruct (schema collection) as [sch|] eqn:Hs;
    [|destruct (parseFrontMatter collection) as [pf|] eqn:Hp].
  3:{ simpl. split; [|split]; [|by intros [? [=]]|done].
      intros fm Hin. by destruct (Hnil fm Hin). }
  all: unfold call, console_log; rewrite !bind_run; simpl.
  all: fold allFiles.
  all: destruct (for_each_file debug collection allFiles []) as [t [out|e]];
    simpl in *.
  all: split; [|split].
  all: try (intros out' _; split; [by eexists | by eapply Hret]).
  all: try done.
  all: try (intros Hsome; constructor; [done|]; rewrite ?app_nil_r;
            try apply Forall_app; try split; auto; by repeat constructor).
  all: intros fm Hin; apply Hfm; destruct Hin as [Hin|Hin]; [left|right].
  all: apply elem_of_cons in Hin as [?|Hin]; [done|].
  all: rewrite ?app_nil_r in Hin.
  all: try (apply elem_of_app in Hin as [?|Hin]; [done|];
            by apply list_elem_of_singleton in Hin).
  all: done.
Qed.
End collecting.

(** ** The options [collectFrontmatterEntries] does not read *)

(** [filter] is declared in the config type and never read: the entries do
    not depend on it. *)
Lemma filter_is_not_read `{Host} (debug : bool)
    (predicate : option (Entry → bool)) (c : FrontmatterCollectionConfig) :
  collectFrontmatterEntries debug (set_filter predicate c)
  = collectFrontmatterEntries debug c.
Proof.
  assert (∀ files entries,
            for_each_file debug (set_filter predicate c) files entries
            = for_each_file debug c files entries) as Hloop.
  { induction files as [|file files IH]; intros entries; simpl; [done|].
    change (collect_file debug (set_filter predicate c) entries file)
      with (collect_file debug c entries file).
    destruct (collect_file debug c entries file) as [t [a|e]]; [|done].
    unfold mbind, M_bind. by rewrite IH. }
  unfold collectFrontmatterEntries. simpl.
  destruct (schema c), (parseFrontMatter c); try done.
  all: unfold mbind, M_bind, call; by rewrite Hloop.
Qed.

(** When a schema is given, [parseFrontMatter] is not read either. *)
Lemma parseFrontMatter_is_not_read `{Host} (debug : bool)
    (f : option (RawFrontmatter → Outcome Entry))
    (c : FrontmatterCollectionConfig) :
  is_Some (schema c) →
  collectFrontmatterEntries debug (set_parseFrontMatter f c)
  = collectFrontmatterEntries debug c.
Proof.
  intros [sch Hs].
  assert (∀ files entries,
            for_each_file debug (set_parseFrontMatter f c) files entries
            = for_each_file debug c files entries) as Hloop.
  { induction files as [|file files IH]; intros entries; simpl; [done|].
    assert (collect_file debug (set_parseFrontMatter f c) entries file
            = collect_file debug c entries file) as ->.
    { unfold collect_file. simpl. by rewrite Hs. }
    destruct (collect_file debug c entries file) as [t [a|e]]; [|done].
    unfold mbind, M_bind. by rewrite IH. }
  unfold collectFrontmatterEntries. simpl. rewrite Hs.
  destruct f, (parseFrontMatter c).
  all: unfold mbind, M_bind, call; by rewrite Hloop.
Qed.

(** ** What [collectFrontmatterEntries] reads, and when it throws *)

(** C1 (the code does not do it).  The claim: with a [filter] predicate, the
    compiled entries are exactly the processed entries for which the
    predicate is true.  The code never calls [collection.filter]: with
    [filter: (a) => a.date > 1] on the posts of the fixture, the entries of
    [a.mdx] and [c.mdx], for which the predicate is false, are in the
    output. *)
Theorem C1_filter_is_ignored :
  (collectFrontmatterEntries (H := Fixture.host) false
     (set_filter (Some Fixture.recent) Fixture.posts)).2
  = Return [Fixture.entryA; Fixture.entryB; Fixture.entryC]
  ∧ Fixture.recent Fixture.entryA = false
  ∧ Fixture.recent Fixture.entryC = false.
Proof. by vm_compute. Qed.

(** C4.  A collection with neither [schema] nor [parseFrontMatter] makes
    [collectFrontmatterEntries] throw the configuration error with an empty
    trace, so before [globSync] and before any [readFileSync]; a load whose
    collections include it throws, and [virtualModuleExports] keeps the
    value it had. *)
Theorem C4_missing_contract_aborts `{Host} (debug : bool)
    (collection : FrontmatterCollectionConfig) :
  schema collection = None →
  parseFrontMatter collection = None →
  collectFrontmatterEntries debug collection
  = ([], Throw (JsError
       ("You must provide a schema or a parseFrontMatter function for the collection "
        +:+ name collection)))
  ∧ ∀ collections virtualModuleExports,
      collection ∈ collections →
      ∃ t e,
        refreshVirtualModuleContent collections debug virtualModuleExports
        = (virtualModuleExports, (t, Throw e))
        ∧ load collections debug virtualModuleExports
            (resolvedVirtualModuleId virtualModuleId)
          = (virtualModuleExports, (t, Throw e)).
Proof.
  intros Hs Hp.
  assert (collectFrontmatterEntries debug collection
          = ([], Throw (JsError
               ("You must provide a schema or a parseFrontMatter function for the collection "
                +:+ name collection)))) as Hthrow.
  { unfold collectFrontmatterEntries. by rewrite Hs, Hp. }
  split; [done|]. intros collections exports Hin.
  assert (∀ acc, ∃ t e,
            for_each_collection debug collections acc = (t, Throw e)) as Hloop.
  { induction collections as [|c cs IH]; intros acc;
      [by apply elem_of_nil in Hin|]. simpl. rewrite bind_run.
    apply elem_of_cons in Hin as [<-|Hin].
    - rewrite Hthrow. simpl. by eexists _, _.
    - destruct (collectFrontmatterEntries debug c) as [t [entries|e]]; simpl.
      + destruct (IH Hin (acc ++
          ["export const " +:+ name c +:+ " = " +:+ JSON_stringify entries
           +:+ ";"])) as (t' & e & ->). simpl. by eexists _, _.
      + by eexists _, _. }
  destruct (Hloop []) as (t & e & Hrun).
  exists t, e. unfold load, refreshVirtualModuleContent.
  rewrite String.eqb_refl, Hrun. done.
Qed.

Lemma C4_missing_contract_witness :
  collectFrontmatterEntries (H := Fixture.host) false Fixture.noContract
  = ([], Throw (JsError
       "You must provide a schema or a parseFrontMatter function for the collection broken"))
  ∧ ∃ t e,
      refreshVirtualModuleContent (H := Fixture.host)
        [Fixture.posts; Fixture.noContract] false None
      = (None, (t, Throw e)).
Proof.
  destruct (C4_missing_contract_aborts (H := Fixture.host) false
              Fixture.noContract) as [Hthrow Hall];
    [reflexivity | reflexivity |].
  split; [exact Hthrow|].
  destruct (Hall [Fixture.posts; Fixture.noContract] None) as (t & e & Hr & _).
  - apply elem_of_cons. right. apply elem_of_cons. by left.
  - by exists t, e.
Defined.

(** C8 (the code does not do it).  The claim: backslashes are replaced by
    forward slashes in the include pattern and in the ignore patterns.  The
    code passes [collection.ignore] to [globSync] as it is: the one call of
    a collection written with backslashes has the include pattern
    normalized and the ignore pattern untouched. *)
Theorem C8_ignore_is_not_normalized :
  globs (collectFrontmatterEntries (H := Fixture.host) false Fixture.windows).1
  = [("posts/*.mdx", Some (IgnoreOne "posts\bad.mdx"))].
Proof. by vm_compute. Qed.

(** C3.  When the collection has a contract, the metadata of exactly one of
    the matched files fails it and every other file gives an entry, then
    [collectFrontmatterEntries] returns (it does not throw), with one entry
    less than there are files; every file was read, the failing one did not
    stop the loop; and there is one diagnostic, which names the failing
    file. *)
Theorem C3_partial_failure_isolation `{Host} (debug : bool)
    (collection : FrontmatterCollectionConfig)
    (before after : list string) (bad : string) :
  globSync (globsafe (include collection)) (ignore collection)
    = before ++ bad :: after →
  fails collection bad →
  (∀ file, file ∈ before ++ after → is_Some (entry_of collection file)) →
  ∃ t entries,
    collectFrontmatterEntries debug collection = (t, Return entries)
    ∧ length entries = (length (before ++ bad :: after) - 1)%nat
    ∧ files_read t = before ++ bad :: after
    ∧ ∃ args, diagnostics t = [args] ∧ names_file bad args.
Proof.
  intros Hglob (data & process & error & Hm & Hc & Hbad) Hgood.
  assert (entry_of collection bad = None) as Hnone.
  { unfold entry_of. rewrite Hm, Hc. simpl. by rewrite Hbad. }
  assert (∀ files, (∀ file, file ∈ files → is_Some (entry_of collection file)) →
            length (omap (entry_of collection) files) = length files
            ∧ failed collection files = []
            ∧ Forall (λ file, is_Some (metadata file)) files) as Hok.
  { induction files as [|f fs IH]; intros Hall; [by repeat constructor|].
    destruct (Hall f) as [e He]; [apply elem_of_cons; by left|].
    destruct IH as (Hlen & Hfail & Hmeta).
    { intros g Hg. apply Hall, elem_of_cons. by right. }
    unfold failed in *. simpl. rewrite He. simpl.
    split; [f_equal; exact Hlen|]. split; [done|]. constructor; [|done].
    unfold entry_of in He. destruct (metadata f); [by eexists|done]. }
  destruct (Hok before) as (Hlen1 & Hfail1 & Hmeta1).
  { intros f Hf. apply Hgood, elem_of_app. by left. }
  destruct (Hok after) as (Hlen2 & Hfail2 & Hmeta2).
  { intros f Hf. apply Hgood, elem_of_app. by right. }
  destruct (collectFrontmatterEntries_run debug collection process Hc)
    as (t & Hrun & Hread & _ & Hdiag & _).
  { rewrite Hglob. apply Forall_app. split; [done|].
    constructor; [by eexists|done]. }
  rewrite Hglob in *. exists t. eexists. split; [exact Hrun|].
  split; [|split; [done|]].
  - assert (omap (entry_of collection) (bad :: after)
            = omap (entry_of collection) after) as Hskip
      by (simpl; by rewrite Hnone).
    unfold sorted_by. destruct (sort collection);
      rewrite ?Array_sort_length, omap_app, Hskip, !length_app, Hlen1, Hlen2;
      simpl; lia.
  - assert (failed collection (before ++ bad :: after) = [bad]) as Hfailed.
    { unfold failed in *. rewrite List.filter_app. simpl.
      by rewrite Hnone, Hfail1, Hfail2. }
    rewrite Hfailed in Hdiag.
    apply Forall2_cons_inv_l in Hdiag as (args & rest & Hn & Hrest & ->).
    apply Forall2_nil_inv_l in Hrest as ->. by exists args.
Qed.

Lemma C3_partial_failure_witness :
  ∃ t entries,
    collectFrontmatterEntries (H := Fixture.host) false Fixture.posts
      = (t, Return entries)
    ∧ length entries = (length (["posts/a.mdx"] ++ "posts/bad.mdx"
                                :: ["posts/b.mdx"; "posts/c.mdx"]) - 1)%nat
    ∧ files_read t = ["posts/a.mdx"] ++ "posts/bad.mdx"
                     :: ["posts/b.mdx"; "posts/c.mdx"]
    ∧ ∃ args, diagnostics t = [args] ∧ names_file "posts/bad.mdx" args.
Proof.
  apply (C3_partial_failure_isolation (H := Fixture.host) false Fixture.posts
           ["posts/a.mdx"] ["posts/b.mdx"; "posts/c.mdx"] "posts/bad.mdx").
  - reflexivity.
  - exists {["date" := JNumber 3]}, (parse Fixture.postSchema),
      (JsError "Required").
    split; [reflexivity|]. split; [reflexivity|]. by vm_compute.
  - intros file Hin.
    apply elem_of_cons in Hin as [->|Hin]; [by vm_compute; eexists|].
    apply elem_of_cons in Hin as [->|Hin]; [by vm_compute; eexists|].
    apply elem_of_cons in Hin as [->|Hin]; [by vm_compute; eexists|].
    by apply elem_of_nil in Hin.
Defined.

(** C10.  When a collection has both [schema] and [parseFrontMatter], no
    run calls [parseFrontMatter]; the run is the one of the same collection
    without [parseFrontMatter]; and the entries returned are the values
    [schema.parse] returns on the files it accepts, each once: in some order
    when the collection has a [sort], in the order of the files when it has
    none. *)
Theorem C10_schema_takes_precedence `{Host} (debug : bool)
    (collection : FrontmatterCollectionConfig) (sch : ZodSchema)
    (f : RawFrontmatter → Outcome Entry) :
  schema collection = Some sch →
  parseFrontMatter collection = Some f →
  Forall (λ e, is_ParseFrontMatter e = false)
    (collectFrontmatterEntries debug collection).1
  ∧ collectFrontmatterEntries debug collection
    = collectFrontmatterEntries debug (set_parseFrontMatter None collection)
  ∧ ∀ entries,
      (collectFrontmatterEntries debug collection).2 = Return entries →
      let accepted :=
        omap (λ file,
                data ← metadata file;
                match parse sch (data ∪ {["filePath" := JString file]}) with
                | Return entry => Some entry
                | Throw _ => None
                end)
          (globSync (globsafe (include collection)) (ignore collection)) in
      entries ≡ₚ accepted
      ∧ (sort collection = None → entries = accepted).
Proof.
  intros Hs Hf.
  destruct (collectFrontmatterEntries_any debug collection)
    as (_ & Hnever & Hret).
  split; [apply Hnever; by eexists|]. split.
  - symmetry. apply parseFrontMatter_is_not_read. by eexists.
  - intros entries Hrun. destruct (Hret entries Hrun) as [_ Hmeta].
    destruct (collectFrontmatterEntries_run debug collection (parse sch))
      as (t & Hrun' & _); [unfold contract; by rewrite Hs | done |].
    rewrite Hrun' in Hrun. simpl in Hrun. injection Hrun as <-.
    assert (omap (entry_of collection)
              (globSync (globsafe (include collection)) (ignore collection))
            = omap (λ file,
                      data ← metadata file;
                      match parse sch (data ∪ {["filePath" := JString file]})
                      with
                      | Return entry => Some entry
                      | Throw _ => None
                      end)
                (globSync (globsafe (include collection)) (ignore collection)))
      as <-.
    { apply list_omap_ext, Forall_Forall2_diag, Forall_forall.
      intros file _. unfold entry_of, contract. by rewrite Hs. }
    unfold sorted_by. destruct (sort collection) as [comparefn|].
    + split; [apply Array_sort_perm|done].
    + by split.
Qed.

Lemma C10_schema_takes_precedence_witness :
  Forall (λ e, is_ParseFrontMatter e = false)
    (collectFrontmatterEntries (H := Fixture.host) false
       (set_parseFrontMatter (Some Fixture.titleOnly) Fixture.posts)).1
  ∧ (collectFrontmatterEntries (H := Fixture.host) false
       (set_parseFrontMatter (Some Fixture.titleOnly) Fixture.posts)).2
    = Return [Fixture.entryA; Fixture.entryB; Fixture.entryC].
Proof.
  destruct (C10_schema_takes_precedence (H := Fixture.host) false
              (set_parseFrontMatter (Some Fixture.titleOnly) Fixture.posts)
              Fixture.postSchema Fixture.titleOnly)
    as (Hnever & Heq & _); [reflexivity | reflexivity |].
  split; [exact Hnever|]. rewrite Heq. by vm_compute.
Defined.

(** ** A comparator that is consistent on all entries *)

Lemma dateDescending_consistent : consistent_comparator Fixture.dateDescending.
Proof.
  split; unfold Fixture.dateDescending; intros a; [|intros b ..].
  - rewrite Z.eqb_refl. by destruct (Z.gtb_spec (Fixture.date_of a)
                                       (Fixture.date_of a)); [lia|].
  - destruct (Z.gtb_spec (Fixture.date_of a) (Fixture.date_of b)),
      (Z.eqb_spec (Fixture.date_of a) (Fixture.date_of b)),
      (Z.gtb_spec (Fixture.date_of b) (Fixture.date_of a)),
      (Z.eqb_spec (Fixture.date_of b) (Fixture.date_of a)); lia.
  - intros c.
    destruct (Z.gtb_spec (Fixture.date_of a) (Fixture.date_of b)),
      (Z.eqb_spec (Fixture.date_of a) (Fixture.date_of b)),
      (Z.gtb_spec (Fixture.date_of b) (Fixture.date_of c)),
      (Z.eqb_spec (Fixture.date_of b) (Fixture.date_of c)),
      (Z.gtb_spec (Fixture.date_of a) (Fixture.date_of c)),
      (Z.eqb_spec (Fixture.date_of a) (Fixture.date_of c)); lia.
  - intros c.
    destruct (Z.gtb_spec (Fixture.date_of a) (Fixture.date_of b)),
      (Z.eqb_spec (Fixture.date_of a) (Fixture.date_of b)),
      (Z.gtb_spec (Fixture.date_of b) (Fixture.date_of c)),
      (Z.eqb_spec (Fixture.date_of b) (Fixture.date_of c)),
      (Z.gtb_spec (Fixture.date_of a) (Fixture.date_of c)),
      (Z.eqb_spec (Fixture.date_of a) (Fixture.date_of c)); lia.
  - intros c.
    destruct (Z.gtb_spec (Fixture.date_of a) (Fixture.date_of b)),
      (Z.eqb_spec (Fixture.date_of a) (Fixture.date_of b)),
      (Z.gtb_spec (Fixture.date_of b) (Fixture.date_of c)),
      (Z.eqb_spec (Fixture.date_of b) (Fixture.date_of c)),
      (Z.gtb_spec (Fixture.date_of a) (Fixture.date_of c)),
      (Z.eqb_spec (Fixture.date_of a) (Fixture.date_of c)); lia.
Qed.

(** ** The virtual module *)

Lemma for_each_collection_run `{Host} (debug : bool)
    (collections : list FrontmatterCollectionConfig)
    (exportedEntries : list string) :
  Forall (λ c, ∃ entries,
            (collectFrontmatterEntries debug c).2 = Return entries)
    collections →
  ∃ t, for_each_collection debug collections exportedEntries
       = (t, Return (exportedEntries
                     ++ map (λ c, exportStatement c (compiled debug c))
                          collections)).
Proof.
  intros Hall. revert exportedEntries.
  induction Hall as [|c cs [entries Hc] _ IH]; intros acc; simpl.
  - exists []. by rewrite app_nil_r.
  - rewrite bind_run. unfold compiled at 1. rewrite Hc.
    destruct (IH (acc ++ [exportStatement c entries])) as (t & Ht).
    unfold exportStatement at 1 in Ht. rewrite Ht. simpl.
    eexists. by rewrite <- app_assoc.
Qed.

(** C6 (counterexample).  The claim: the body is exactly the concatenation
    of the export statements.  With the two collections [posts] and
    [titles] the body is not the concatenation of their two statements:
    [join] puts a line feed between them. *)
Lemma C6_statements_not_concatenated :
  (refreshVirtualModuleContent (H := Fixture.host)
     [Fixture.posts; Fixture.titles] false None).2.2
  ≠ Return
      (String.concat ""
         (map (λ c, exportStatement (H := Fixture.host) c
                      (compiled (H := Fixture.host) false c))
            [Fixture.posts; Fixture.titles])).
Proof.
  assert (∀ a b : string, String.eqb a b = false →
            Return a ≠ Return b) as Hdiff.
  { intros a b Hne [= ->]. by rewrite String.eqb_refl in Hne. }
  vm_compute. apply Hdiff. by vm_compute.
Qed.

(** C6 (amended).  When every configured collection is collected without a
    throw, the body returned on load, which is also the new value of
    [virtualModuleExports], is the export statements of the collections, in
    the order of the configuration, with one line feed between two
    statements; each statement carries the JSON text of the entries
    [collectFrontmatterEntries] returns for its collection. *)
Theorem C6_module_body `{Host} (debug : bool)
    (collections : list FrontmatterCollectionConfig)
    (virtualModuleExports : option string) :
  Forall (λ c, ∃ entries,
            (collectFrontmatterEntries debug c).2 = Return entries)
    collections →
  let body :=
    join LF (map (λ c, exportStatement c (compiled debug c)) collections) in
  ∃ t,
    refreshVirtualModuleContent collections debug virtualModuleExports
    = (Some body, (t, Return body))
    ∧ load collections debug virtualModuleExports
        (resolvedVirtualModuleId virtualModuleId)
      = (Some body, (t, Return (Some body))).
Proof.
  intros Hall body.
  destruct (for_each_collection_run debug collections [] Hall) as (t & Ht).
  exists t. unfold load, refreshVirtualModuleContent.
  rewrite String.eqb_refl, Ht. simpl. by rewrite !app_nil_r.
Qed.

Lemma C6_module_body_witness :
  ∃ t,
    refreshVirtualModuleContent (H := Fixture.host)
      [Fixture.posts; Fixture.empty] false None
    = (Some ("export const posts = "
             +:+ Fixture.stringify
                   (JArray [Fixture.entryA; Fixture.entryB; Fixture.entryC])
             +:+ ";" +:+ LF +:+ "export const empty = [];"),
       (t, Return ("export const posts = "
             +:+ Fixture.stringify
                   (JArray [Fixture.entryA; Fixture.entryB; Fixture.entryC])
             +:+ ";" +:+ LF +:+ "export const empty = [];"))).
Proof.
  destruct (C6_module_body (H := Fixture.host) false
              [Fixture.posts; Fixture.empty] None) as (t & Hrun & _).
  - repeat constructor; eexists; vm_compute; reflexivity.
  - exists t. exact Hrun.
Defined.

(** C5.  [handleHotUpdate] invalidates the node of the virtual module
    exactly when the changed path ends with [.mdx] and the module graph has
    the node; otherwise the server is unchanged.  So the node is stale
    afterwards exactly when it was stale before or the update invalidated
    it; no other node changes. *)
Theorem C5_invalidation_selectivity (server : ViteDevServer) (file : string)
    (modules : list string) :
  let id := resolvedVirtualModuleId virtualModuleId in
  let invalidates :=
    endsWith file ".mdx" && bool_decide (is_Some (getModuleById server id)) in
  handleHotUpdate server file modules
  = (if invalidates then invalidateModule server id else server, modules)
  ∧ is_stale (handleHotUpdate server file modules).1 id
    = is_stale server id || invalidates
  ∧ (endsWith file ".mdx" = true ↔ ∃ p, file = p +:+ ".mdx")
  ∧ ∀ other, other ≠ id →
      getModuleById (handleHotUpdate server file modules).1 other
      = getModuleById server other.
Proof.
  intros id invalidates.
  assert (handleHotUpdate server file modules
          = (if invalidates then invalidateModule server id else server,
             modules)) as Hrun.
  { subst invalidates. unfold handleHotUpdate. fold id.
    destruct (endsWith file ".mdx"); simpl; [|done].
    by destruct (getModuleById server id) as [node|]. }
  rewrite Hrun. simpl. split; [done|]. split; [|split].
  - subst invalidates. unfold is_stale, getModuleById.
    destruct (endsWith file ".mdx"); simpl; [|by rewrite orb_false_r].
    destruct (moduleGraph server !! id) as [node|] eqn:Hnode.
    + simpl. by rewrite lookup_alter_eq, Hnode, orb_true_r.
    + simpl. by rewrite Hnode.
  - apply endsWith_spec.
  - intros other Hne. destruct invalidates; [|done].
    unfold getModuleById. simpl. by rewrite lookup_alter_ne.
Qed.

(** ** The declaration file *)

(** The loop of [configResolved] keeps, in order, one declaration for each
    collection that has a schema. *)
Lemma ambientDeclarations_loop_spec `{Host}
    (collections : list FrontmatterCollectionConfig) (acc : list string) :
  ambientDeclarations_loop collections acc
  = acc ++ omap (λ c, sch ← schema c;
                      Some ("export const " +:+ name c +:+ ": "
                            +:+ printNode (zodToTs sch (name c)) +:+ "[];"))
             collections.
Proof.
  revert acc. induction collections as [|c cs IH]; intros acc; simpl.
  - by rewrite app_nil_r.
  - destruct (schema c) as [sch|]; simpl; [|apply IH].
    rewrite IH. by rewrite <- app_assoc.
Qed.

(** C9.  [configResolved] run on its own result changes nothing; when
    [generateDTS] is set, the file it writes holds
    [ambiantDeclarationsString], whatever the file system held before, and
    that text is made of the names and the schemas of the collections only;
    when [generateDTS] is not set, nothing is written. *)
Theorem C9_declaration_emission_idempotent `{Host}
    (collections : list FrontmatterCollectionConfig)
    (typesPath : option string) (generateDTS : bool) (root : string)
    (fs fs' : gmap string string) :
  let emit := configResolved collections typesPath generateDTS root in
  emit (emit fs) = emit fs
  ∧ (if generateDTS
     then emit fs !! declarationFullPath typesPath root
          = Some (ambiantDeclarationsString collections)
          ∧ emit fs' !! declarationFullPath typesPath root
            = emit fs !! declarationFullPath typesPath root
     else emit fs = fs)
  ∧ ambiantDeclarationsString collections
    = "// This file is auto-generated. Do not edit manually." +:+ LF
      +:+ "declare module " +:+ DQUOTE +:+ virtualModuleId +:+ DQUOTE
      +:+ " {" +:+ LF
      +:+ join LF
            (omap (λ c, sch ← schema c;
                        Some ("export const " +:+ name c +:+ ": "
                              +:+ printNode (zodToTs sch (name c)) +:+ "[];"))
               collections)
      +:+ LF +:+ "}" +:+ LF.
Proof.
  intros emit. subst emit. unfold configResolved.
  destruct generateDTS; simpl.
  - split; [apply insert_insert_eq|]. split.
    + by rewrite !lookup_insert_eq.
    + unfold ambiantDeclarationsString.
      by rewrite ambientDeclarations_loop_spec.
  - split; [done|]. split; [done|].
    unfold ambiantDeclarationsString.
    by rewrite ambientDeclarations_loop_spec.
Qed.

(** * Further properties of the plugin *)

(** ** [globsafe] *)

Lemma globsafe_append (a b : string) :
  globsafe (a +:+ b) = globsafe a +:+ globsafe b.
Proof.
  induction a as [|c a IH]; [done|].
  change (String (if Ascii.eqb c "\"%char then "/"%char else c)
            (globsafe (a +:+ b))
          = String (if Ascii.eqb c "\"%char then "/"%char else c)
              (globsafe a +:+ globsafe b)).
  by rewrite IH.
Qed.

(** X1.  [globsafe] leaves no backslash, keeps the length, changes nothing
    in a pattern that has no backslash (and only in such a pattern), is
    idempotent, and works piece by piece on a pattern put together from two
    parts. *)
Theorem X1_globsafe_normal_form (s s' : string) :
  ("\"%char ∉ list_ascii_of_string (globsafe s))
  ∧ String.length (globsafe s) = String.length s
  ∧ (globsafe s = s ↔ ("\"%char ∉ list_ascii_of_string s))
  ∧ globsafe (globsafe s) = globsafe s
  ∧ globsafe (s +:+ s') = globsafe s +:+ globsafe s'.
Proof.
  assert (∀ r, globsafe r = r ↔ ("\"%char ∉ list_ascii_of_string r))
    as Hfix.
  { induction r as [|c r IH]; simpl.
    - split; [intros _; apply not_elem_of_nil|done].
    - rewrite not_elem_of_cons, <- IH.
      destruct (Ascii.eqb_spec c "\"%char) as [->|Hne].
      + split; [intros [=]|intros [? _]; done].
      + split; [intros [= Heq]; split; [congruence|done]|intros [_ ->]; done]. }
  split; [apply globsafe_no_backslash|]. split; [apply globsafe_length|].
  split; [apply Hfix|]. split; [|apply globsafe_append].
  apply Hfix, globsafe_no_backslash.
Qed.

(** ** More on [collectFrontmatterEntries] *)

Section collecting_more.
Context `{Host}.
Variable debug : bool.

Lemma accounted (collection : FrontmatterCollectionConfig)
    (files : list string) :
  (length (omap (entry_of collection) files)
   + length (failed collection files))%nat = length files.
Proof.
  unfold failed. induction files as [|file files IH]; [done|].
  simpl. destruct (entry_of collection file); simpl;
    change (list_omap _ _ (entry_of collection) files)
      with (omap (entry_of collection) files); lia.
Qed.

(** A run that returns was a run on a collection with a contract, over
    files whose metadata could all be extracted. *)
Lemma collectFrontmatterEntries_returns collection out :
  (collectFrontmatterEntries debug collection).2 = Return out →
  let allFiles :=
    globSync (globsafe (include collection)) (ignore collection) in
  ∃ process,
    contract collection = Some process
    ∧ Forall (λ file, is_Some (metadata file)) allFiles
    ∧ out = sorted_by collection (omap (entry_of collection) allFiles)
    ∧ files_read (collectFrontmatterEntries debug collection).1 = allFiles
    ∧ globs (collectFrontmatterEntries debug collection).1
      = [glob_call collection]
    ∧ Forall2 names_file (failed collection allFiles)
        (diagnostics (collectFrontmatterEntries debug collection).1).
Proof.
  intros Hrun allFiles.
  destruct (collectFrontmatterEntries_any debug collection) as (_ & _ & Hret).
  destruct (Hret out Hrun) as [[process Hc] Hmeta].
  destruct (collectFrontmatterEntries_run debug collection process Hc Hmeta)
    as (t & Hrun' & Hread & Hglob & Hdiag & _).
  rewrite Hrun' in *. simpl in *. injection Hrun as <-.
  by exists process.
Qed.

Lemma collect_file_diagnostics collection process entries file data :
  contract collection = Some process →
  metadata file = Some data →
  diagnostics (collect_file debug collection entries file).1
  = option_list (diagnostic_of collection file).
Proof.
  intros Hc Hm. unfold diagnostic_of. rewrite Hm, Hc. simpl.
  apply metadata_Some in Hm as (text & Hr & Hm).
  unfold collect_file, call, console_log, mbind, M_bind, mret, M_ret.
  rewrite Hr, Hm. simpl. unfold contract in Hc.
  destruct debug; simpl;
    destruct (schema collection) as [sch|]; simplify_eq/=.
  all: try (destruct (parseFrontMatter collection) as [pf|]; simplify_eq/=).
  all: unfold try_catch, call; simpl.
  all: try (destruct (parse sch _) as [entry|[message|thrown]]; by simpl).
  all: destruct (process _) as [entry|[message|thrown]]; by simpl.
Qed.

Lemma for_each_file_diagnostics collection process files entries :
  contract collection = Some process →
  Forall (λ file, is_Some (metadata file)) files →
  diagnostics (for_each_file debug collection files entries).1
  = omap (diagnostic_of collection) files.
Proof.
  intros Hc Hall. revert entries.
  induction Hall as [|file files [data Hm] _ IH]; intros entries; [done|].
  simpl. rewrite bind_run.
  destruct (collect_file_run debug collection process entries file data Hc Hm)
    as (t1 & Hrun & _).
  pose proof (collect_file_diagnostics collection process entries file data
                Hc Hm) as Hd.
  rewrite Hrun in *. simpl in *.
  unfold diagnostics in *. rewrite omap_app, Hd, IH.
  by destruct (diagnostic_of collection file).
Qed.

(** [collectFrontmatterEntries] on a collection with a contract: the call
    of [globSync], the loop, and when the loop returns the sort and the
    count. *)
Lemma collectFrontmatterEntries_unfold collection :
  is_Some (contract collection) →
  let allFiles :=
    globSync (globsafe (include collection)) (ignore collection) in
  let loop := for_each_file debug collection allFiles [] in
  collectFrontmatterEntries debug collection
  = match loop.2 with
    | Return entries =>
        (GlobSync (globsafe (include collection)) (ignore collection)
           :: loop.1
           ++ [collected_log collection (sorted_by collection entries)
                 allFiles],
         Return (sorted_by collection entries))
    | Throw e =>
        (GlobSync (globsafe (include collection)) (ignore collection)
           :: loop.1, Throw e)
    end.
Proof.
  intros [process Hc] allFiles loop. subst loop.
  unfold collectFrontmatterEntries, contract, sorted_by, collected_log in *.
  destruct (schema collection), (parseFrontMatter collection); try done.
  all: unfold call, console_log; rewrite !bind_run; simpl; fold allFiles.
  all: destruct (for_each_file debug collection allFiles []) as [t [out|e]];
    simpl; by rewrite ?app_nil_r.
Qed.

(** The loop stops at the first file whose metadata cannot be extracted:
    the files after it are not read. *)
Lemma for_each_file_stops collection process before bad after entries :
  contract collection = Some process →
  Forall (λ file, is_Some (metadata file)) before →
  metadata bad = None →
  ∃ t e,
    for_each_file debug collection (before ++ bad :: after) entries
    = (t, Throw e)
    ∧ files_read t = before ++ [bad]
    ∧ (readFileSync bad = Throw e
       ∨ ∃ text, readFileSync bad = Return text ∧ matter text = Throw e).
Proof.
  intros Hc Hall Hbad. revert entries.
  induction Hall as [|file files [data Hm] _ IH]; intros entries; simpl.
  - unfold metadata in Hbad. unfold collect_file, call, mbind, M_bind.
    destruct (readFileSync bad) as [text|e] eqn:Hr; simpl.
    + destruct (matter text) as [data|e] eqn:Hmat; [done|]. simpl.
      eexists _, e. split; [reflexivity|]. split; [done|]. right. by exists text.
    + eexists _, e. split; [reflexivity|]. split; [done|]. by left.
  - rewrite bind_run.
    destruct (collect_file_run debug collection process entries file data
                Hc Hm) as (t1 & -> & Hread & _).
    simpl.
    destruct (IH (entries ++ option_list (entry_of collection file)))
      as (t2 & e & -> & Hread2 & Hwhy).
    simpl. exists (t1 ++ t2), e. split; [done|]. split; [|done].
    unfold files_read in *. by rewrite omap_app, Hread, Hread2.
Qed.

(** [debug] adds calls of [console.log] to a turn of the loop and nothing
    else. *)
Lemma collect_file_debug collection entries file :
  (collect_file true collection entries file).2
  = (collect_file false collection entries file).2
  ∧ without_logs (collect_file true collection entries file).1
    = without_logs (collect_file false collection entries file).1.
Proof.
  unfold collect_file, call, console_log, mbind, M_bind, mret, M_ret.
  destruct (readFileSync file) as [text|e]; simpl; [|done].
  destruct (matter text) as [data|e]; simpl; [|done].
  destruct (schema collection) as [sch|]; simpl.
  - unfold try_catch, call. destruct (parse sch _) as [entry|error]; simpl;
      [done|].
    by destruct (report_parse_error_run file error) as (args & -> & _).
  - destruct (parseFrontMatter collection) as [pf|]; simpl; [|done].
    unfold try_catch, call. destruct (pf _) as [entry|error]; simpl; [done|].
    by destruct (report_parse_error_run file error) as (args & -> & _).
Qed.

Lemma for_each_file_debug collection files entries :
  (for_each_file true collection files entries).2
  = (for_each_file false collection files entries).2
  ∧ without_logs (for_each_file true collection files entries).1
    = without_logs (for_each_file false collection files entries).1.
Proof.
  revert entries. induction files as [|file files IH]; intros entries;
    [done|].
  simpl. rewrite !bind_run.
  destruct (collect_file_debug collection entries file) as [Hout Hlog].
  destruct (collect_file true collection entries file) as [t1 o1],
    (collect_file false collection entries file) as [t2 o2].
  simpl in *. subst o2. destruct o1 as [acc|e]; simpl; [|done].
  destruct (IH acc) as [Hout' Hlog'].
  split; [done|]. unfold without_logs in *.
  by rewrite !List.filter_app, Hlog, Hlog'.
Qed.
End collecting_more.

(** X2.  When [collectFrontmatterEntries] returns, every matched file was
    read, in the order [globSync] gave, and accounts for exactly one entry
    or one diagnostic: the entries and the diagnostics together are as many
    as the files. *)
Theorem X2_every_file_is_accounted_for `{Host} (debug : bool)
    (collection : FrontmatterCollectionConfig) (out : list Entry) :
  (collectFrontmatterEntries debug collection).2 = Return out →
  files_read (collectFrontmatterEntries debug collection).1
  = globSync (globsafe (include collection)) (ignore collection)
  ∧ (length out
     + length (diagnostics (collectFrontmatterEntries debug collection).1))%nat
    = length (globSync (globsafe (include collection)) (ignore collection)).
Proof.
  intros Hrun.
  destruct (collectFrontmatterEntries_returns debug collection out Hrun)
    as (process & _ & _ & -> & Hread & _ & Hdiag).
  split; [done|]. apply Forall2_length in Hdiag. rewrite <- Hdiag.
  unfold sorted_by. destruct (sort collection);
    rewrite ?Array_sort_length; apply accounted.
Qed.

Lemma X2_every_file_is_accounted_for_witness :
  files_read
    (collectFrontmatterEntries (H := Fixture.host) false Fixture.posts).1
  = globSync (Host := Fixture.host) (globsafe "posts/*.mdx") None
  ∧ (length [Fixture.entryA; Fixture.entryB; Fixture.entryC]
     + length (diagnostics
         (collectFrontmatterEntries (H := Fixture.host) false
            Fixture.posts).1))%nat
    = length (globSync (Host := Fixture.host) (globsafe "posts/*.mdx") None).
Proof.
  apply (X2_every_file_is_accounted_for (H := Fixture.host) false
           Fixture.posts).
  by vm_compute.
Defined.

(** X3.  When [collectFrontmatterEntries] returns, what it wrote with
    [console.error] is, in the order of the files, one diagnostic for each
    file whose metadata failed the contract and none for the others; the
    diagnostic holds the path of the file and the message of the [Error]
    thrown, or the thrown value itself when it is no [Error]. *)
Theorem X3_diagnostics_follow_the_files `{Host} (debug : bool)
    (collection : FrontmatterCollectionConfig) (out : list Entry) :
  (collectFrontmatterEntries debug collection).2 = Return out →
  diagnostics (collectFrontmatterEntries debug collection).1
  = omap (diagnostic_of collection)
      (globSync (globsafe (include collection)) (ignore collection)).
Proof.
  intros Hrun.
  destruct (collectFrontmatterEntries_returns debug collection out Hrun)
    as (process & Hc & Hmeta & _).
  rewrite collectFrontmatterEntries_unfold by by eexists.
  pose proof (for_each_file_diagnostics debug collection process _ [] Hc Hmeta)
    as Hd.
  destruct (for_each_file debug collection _ []) as [t [entries|e]];
    simpl in *; unfold diagnostics in *; simpl; [|done].
  rewrite omap_app. simpl. by rewrite app_nil_r.
Qed.

Lemma X3_diagnostics_follow_the_files_witness :
  diagnostics
    (collectFrontmatterEntries (H := Fixture.host) false Fixture.titles).1
  = omap (diagnostic_of (H := Fixture.host) Fixture.titles)
      (globSync (Host := Fixture.host) (globsafe "posts/*.mdx") None).
Proof.
  apply (X3_diagnostics_follow_the_files (H := Fixture.host) false
           Fixture.titles
           [JObject [("title", JString "A")]; JObject [("title", JString "B")];
            JObject [("title", JString "C")]]).
  by vm_compute.
Defined.

(** X4.  A matched file that cannot be read, or whose text gray-matter
    cannot split, is no per-file failure: [collectFrontmatterEntries] throws
    what [readFileSync] or [matter] threw, returns no entry (not even those
    of the files before), and the files after it are not read. *)
Theorem X4_unreadable_file_aborts `{Host} (debug : bool)
    (collection : FrontmatterCollectionConfig)
    (before after : list string) (bad : string) :
  is_Some (contract collection) →
  globSync (globsafe (include collection)) (ignore collection)
    = before ++ bad :: after →
  Forall (λ file, is_Some (metadata file)) before →
  metadata bad = None →
  ∃ e,
    (collectFrontmatterEntries debug collection).2 = Throw e
    ∧ files_read (collectFrontmatterEntries debug collection).1
      = before ++ [bad]
    ∧ (readFileSync bad = Throw e
       ∨ ∃ text, readFileSync bad = Return text ∧ matter text = Throw e).
Proof.
  intros Hc Hglob Hbefore Hbad.
  rewrite collectFrontmatterEntries_unfold by done. rewrite Hglob.
  destruct Hc as [process Hc].
  destruct (for_each_file_stops debug collection process before bad after []
              Hc Hbefore Hbad) as (t & e & -> & Hread & Hwhy).
  by exists e.
Qed.

Lemma X4_unreadable_file_aborts_witness :
  ∃ e,
    (collectFrontmatterEntries (H := Fixture.lost) false Fixture.posts).2
    = Throw e
    ∧ files_read
        (collectFrontmatterEntries (H := Fixture.lost) false Fixture.posts).1
      = ["posts/a.mdx"] ++ ["posts/gone.mdx"]
    ∧ (readFileSync (Host := Fixture.lost) "posts/gone.mdx" = Throw e
       ∨ ∃ text, readFileSync (Host := Fixture.lost) "posts/gone.mdx"
                 = Return text
                 ∧ matter (Host := Fixture.lost) text = Throw e).
Proof.
  apply (X4_unreadable_file_aborts (H := Fixture.lost) false Fixture.posts
           ["posts/a.mdx"] ["posts/b.mdx"] "posts/gone.mdx").
  - by eexists.
  - reflexivity.
  - repeat constructor. by vm_compute; eexists.
  - reflexivity.
Defined.

(** X5.  The [debug] option changes neither what [collectFrontmatterEntries]
    returns or throws nor anything it does besides [console.log]: the two
    traces are the same once the calls of [console.log] are left out. *)
Theorem X5_debug_only_logs `{Host}
    (collection : FrontmatterCollectionConfig) :
  (collectFrontmatterEntries true collection).2
  = (collectFrontmatterEntries false collection).2
  ∧ without_logs (collectFrontmatterEntries true collection).1
    = without_logs (collectFrontmatterEntries false collection).1.
Proof.
  destruct (contract collection) as [process|] eqn:Hc.
  - rewrite !collectFrontmatterEntries_unfold by by eexists.
    destruct (for_each_file_debug collection
                (globSync (globsafe (include collection)) (ignore collection))
                []) as [Hout Hlog].
    destruct (for_each_file true collection _ []) as [t1 o1],
      (for_each_file false collection _ []) as [t2 o2].
    simpl in *. subst o2. destruct o1 as [entries|e]; simpl.
    + split; [done|]. unfold without_logs in *.
      by rewrite !List.filter_app, Hlog.
    + split; [done|]. unfold without_logs in *. by rewrite Hlog.
  - unfold contract in Hc. unfold collectFrontmatterEntries.
    destruct (schema collection); [done|]. by rewrite Hc.
Qed.

(** X6.  Whatever the comparator, consistent or not, [sort] only rearranges:
    the entries returned with [sort] are a permutation of those returned
    without it, so none is lost and none doubled. *)
Theorem X6_sort_only_rearranges `{Host} (debug : bool)
    (collection : FrontmatterCollectionConfig)
    (comparefn : Entry → Entry → Z) (out : list Entry) :
  sort collection = Some comparefn →
  (collectFrontmatterEntries debug collection).2 = Return out →
  ∃ pre,
    (collectFrontmatterEntries debug (set_sort None collection)).2 = Return pre
    ∧ out ≡ₚ pre
    ∧ length out = length pre.
Proof.
  intros Hsort Hrun.
  destruct (collectFrontmatterEntries_returns debug collection out Hrun)
    as (process & Hc & Hmeta & -> & _).
  destruct (collectFrontmatterEntries_run debug (set_sort None collection)
              process Hc Hmeta) as (t0 & Hrun0 & _).
  rewrite Hrun0. simpl. eexists. split; [reflexivity|].
  unfold sorted_by. rewrite Hsort. simpl.
  split; [apply Array_sort_perm | apply Array_sort_length].
Qed.

Lemma X6_sort_only_rearranges_witness :
  ∃ pre,
    (collectFrontmatterEntries (H := Fixture.host) false
       (set_sort None
          (set_sort (Some Fixture.dateDescending) Fixture.posts))).2
    = Return pre
    ∧ [Fixture.entryB; Fixture.entryA; Fixture.entryC] ≡ₚ pre
    ∧ length [Fixture.entryB; Fixture.entryA; Fixture.entryC] = length pre.
Proof.
  apply (X6_sort_only_rearranges (H := Fixture.host) false
           (set_sort (Some Fixture.dateDescending) Fixture.posts)
           Fixture.dateDescending).
  - reflexivity.
  - by vm_compute.
Defined.

(** X7.  When [collectFrontmatterEntries] returns, the last thing it did is
    the [console.log] of the count, and the count is right: the number of
    entries it returns, out of the number of files [globSync] gave. *)
Theorem X7_count_is_reported `{Host} (debug : bool)
    (collection : FrontmatterCollectionConfig) (out : list Entry) :
  (collectFrontmatterEntries debug collection).2 = Return out →
  last (collectFrontmatterEntries debug collection).1
  = Some (collected_log collection out
            (globSync (globsafe (include collection)) (ignore collection))).
Proof.
  intros Hrun.
  destruct (collectFrontmatterEntries_returns debug collection out Hrun)
    as (process & Hc & _).
  rewrite collectFrontmatterEntries_unfold in * by by eexists.
  destruct (for_each_file debug collection _ []) as [t [entries|e]];
    simpl in *; [|done].
  injection Hrun as <-. by rewrite app_comm_cons, last_snoc.
Qed.

Lemma X7_count_is_reported_witness :
  last (collectFrontmatterEntries (H := Fixture.host) false Fixture.posts).1
  = Some (collected_log Fixture.posts
            [Fixture.entryA; Fixture.entryB; Fixture.entryC]
            (globSync (Host := Fixture.host) (globsafe "posts/*.mdx") None)).
Proof.
  apply (X7_count_is_reported (H := Fixture.host) false Fixture.posts).
  by vm_compute.
Defined.

(** X8.  A collection with a contract whose pattern matches no file is no
    error: [collectFrontmatterEntries] returns no entry, reads nothing, and
    writes only the count, whatever [sort] it has. *)
Theorem X8_no_match_no_entry `{Host} (debug : bool)
    (collection : FrontmatterCollectionConfig) :
  is_Some (contract collection) →
  globSync (globsafe (include collection)) (ignore collection) = [] →
  collectFrontmatterEntries debug collection
  = ([GlobSync (globsafe (include collection)) (ignore collection);
      collected_log collection [] []],
     Return []).
Proof.
  intros Hc Hglob.
  rewrite collectFrontmatterEntries_unfold by done. rewrite Hglob. simpl.
  unfold sorted_by. by destruct (sort collection).
Qed.

Lemma X8_no_match_no_entry_witness :
  collectFrontmatterEntries (H := Fixture.host) true
    (set_sort (Some Fixture.dateDescending) Fixture.empty)
  = ([GlobSync "nothing/*.mdx" None;
      collected_log Fixture.empty [] []],
     Return []).
Proof.
  apply (X8_no_match_no_entry (H := Fixture.host) true
           (set_sort (Some Fixture.dateDescending) Fixture.empty)).
  - by eexists.
  - reflexivity.
Defined.

(** X9.  Without [sort], the entries come in the order [globSync] gave the
    files: the entry of each file that passes the contract, where the file
    stands, and nothing for a file that fails it. *)
Theorem X9_entries_follow_the_files `{Host} (debug : bool)
    (collection : FrontmatterCollectionConfig) (out : list Entry) :
  sort collection = None →
  (collectFrontmatterEntries debug collection).2 = Return out →
  out = omap (entry_of collection)
          (globSync (globsafe (include collection)) (ignore collection)).
Proof.
  intros Hsort Hrun.
  destruct (collectFrontmatterEntries_returns debug collection out Hrun)
    as (process & _ & _ & -> & _).
  unfold sorted_by. by rewrite Hsort.
Qed.

Lemma X9_entries_follow_the_files_witness :
  [Fixture.entryA; Fixture.entryB; Fixture.entryC]
  = omap (entry_of (H := Fixture.host) Fixture.posts)
      (globSync (Host := Fixture.host) (globsafe "posts/*.mdx") None).
Proof.
  apply (X9_entries_follow_the_files (H := Fixture.host) false Fixture.posts).
  - reflexivity.
  - by vm_compute.
Defined.

(** ** More on the virtual module *)

(** The loop of [refreshVirtualModuleContent] over collections that are all
    collected: one call of [globSync] for each, in order, and the files of
    each read in turn. *)
Lemma for_each_collection_effects `{Host} (debug : bool)
    (collections : list FrontmatterCollectionConfig)
    (exportedEntries : list string) :
  Forall (λ c, ∃ entries,
            (collectFrontmatterEntries debug c).2 = Return entries)
    collections →
  globs (for_each_collection debug collections exportedEntries).1
  = map glob_call collections
  ∧ files_read (for_each_collection debug collections exportedEntries).1
    = concat (map (λ c, globSync (globsafe (include c)) (ignore c))
                collections).
Proof.
  intros Hall. revert exportedEntries.
  induction Hall as [|c cs [entries Hc] _ IH]; intros acc; [done|].
  simpl. rewrite bind_run, Hc.
  destruct (collectFrontmatterEntries_returns debug c entries Hc)
    as (_ & _ & _ & _ & Hread & Hglob & _).
  destruct (IH (acc ++ ["export const " +:+ name c +:+ " = "
                        +:+ JSON_stringify entries +:+ ";"])) as [IHg IHr].
  simpl. unfold globs, files_read in *.
  by rewrite !omap_app, Hglob, Hread, IHg, IHr.
Qed.

(** X10.  A load whose collections are all collected calls [globSync] once
    for each collection, in the order of the configuration, and reads the
    files of the first collection, then those of the second, and so on: a
    file matched by two collections is read twice. *)
Theorem X10_one_glob_per_collection `{Host} (debug : bool)
    (collections : list FrontmatterCollectionConfig)
    (virtualModuleExports : option string) :
  Forall (λ c, ∃ entries,
            (collectFrontmatterEntries debug c).2 = Return entries)
    collections →
  globs (refreshVirtualModuleContent collections debug
           virtualModuleExports).2.1
  = map glob_call collections
  ∧ files_read (refreshVirtualModuleContent collections debug
                  virtualModuleExports).2.1
    = concat (map (λ c, globSync (globsafe (include c)) (ignore c))
                collections).
Proof.
  intros Hall.
  destruct (for_each_collection_effects debug collections [] Hall)
    as [Hglob Hread].
  destruct (for_each_collection_run debug collections [] Hall) as (t & Ht).
  unfold refreshVirtualModuleContent. rewrite Ht in *. simpl in *.
  by rewrite app_nil_r.
Qed.

Lemma X10_one_glob_per_collection_witness :
  globs (refreshVirtualModuleContent (H := Fixture.host)
           [Fixture.posts; Fixture.titles] false None).2.1
  = map glob_call [Fixture.posts; Fixture.titles]
  ∧ files_read (refreshVirtualModuleContent (H := Fixture.host)
                  [Fixture.posts; Fixture.titles] false None).2.1
    = concat (map (λ c, globSync (Host := Fixture.host)
                          (globsafe (include c)) (ignore c))
                [Fixture.posts; Fixture.titles]).
Proof.
  apply (X10_one_glob_per_collection (H := Fixture.host) false
           [Fixture.posts; Fixture.titles] None).
  repeat constructor; eexists; vm_compute; reflexivity.
Defined.

(** X11.  When the collections before one are collected and that one
    throws, whatever it throws (the configuration error or a file that
    cannot be read), the load throws the same value, [virtualModuleExports]
    keeps its value, and what was done is what the load of the collections
    before does, then what the throwing collection did: the collections
    after it are not touched. *)
Theorem X11_first_throw_ends_the_load `{Host} (debug : bool)
    (before after : list FrontmatterCollectionConfig)
    (collection : FrontmatterCollectionConfig) (e : JsThrown)
    (virtualModuleExports : option string) :
  Forall (λ c, ∃ entries,
            (collectFrontmatterEntries debug c).2 = Return entries)
    before →
  (collectFrontmatterEntries debug collection).2 = Throw e →
  refreshVirtualModuleContent (before ++ collection :: after) debug
    virtualModuleExports
  = (virtualModuleExports,
     ((refreshVirtualModuleContent before debug virtualModuleExports).2.1
      ++ (collectFrontmatterEntries debug collection).1,
      Throw e)).
Proof.
  intros Hall He.
  assert (∀ acc,
            for_each_collection debug (before ++ collection :: after) acc
            = ((for_each_collection debug before acc).1
               ++ (collectFrontmatterEntries debug collection).1, Throw e))
    as Hloop.
  { induction Hall as [|c cs [entries Hc] _ IH]; intros acc; simpl.
    - rewrite bind_run, He. done.
    - rewrite !bind_run, Hc, IH. simpl. by rewrite app_assoc. }
  destruct (for_each_collection_run debug before [] Hall) as (t & Ht).
  unfold refreshVirtualModuleContent. rewrite Hloop, Ht. simpl.
  by rewrite app_nil_r.
Qed.

Lemma X11_first_throw_ends_the_load_witness :
  refreshVirtualModuleContent (H := Fixture.host)
    ([Fixture.posts] ++ Fixture.noContract :: [Fixture.titles]) false
    (Some "export const kept = [];")
  = (Some "export const kept = [];",
     ((refreshVirtualModuleContent (H := Fixture.host) [Fixture.posts] false
         (Some "export const kept = [];")).2.1
      ++ (collectFrontmatterEntries (H := Fixture.host) false
            Fixture.noContract).1,
      Throw (JsError
        "You must provide a schema or a parseFrontMatter function for the collection broken"))).
Proof.
  apply (X11_first_throw_ends_the_load (H := Fixture.host) false
           [Fixture.posts] [Fixture.titles] Fixture.noContract).
  - repeat constructor. eexists. by vm_compute.
  - by vm_compute.
Defined.

(** ** More on the hooks *)

(** X12.  [resolveId] answers for the public id of the virtual module,
    with that id behind a NUL character, and for no other id, the id it
    gives included; [load] on the public id does nothing and returns
    nothing, and [load] on the id [resolveId] gives does what
    [refreshVirtualModuleContent] does and returns its text. *)
Theorem X12_resolve_then_load `{Host} (debug : bool)
    (collections : list FrontmatterCollectionConfig)
    (virtualModuleExports : option string) (id : string) :
  let resolved := String "000"%char "virtual:frontmatter-collection" in
  resolveId "virtual:frontmatter-collection" = Some resolved
  ∧ resolveId id
    = (if String.eqb id "virtual:frontmatter-collection"
       then Some resolved else None)
  ∧ resolveId resolved = None
  ∧ load collections debug virtualModuleExports
      "virtual:frontmatter-collection"
    = (virtualModuleExports, ([], Return None))
  ∧ (load collections debug virtualModuleExports resolved).1
    = (refreshVirtualModuleContent collections debug virtualModuleExports).1
  ∧ (load collections debug virtualModuleExports resolved).2
    = (body ← (refreshVirtualModuleContent collections debug
                 virtualModuleExports).2;
       mret (Some body)).
Proof.
  intros resolved. subst resolved.
  split; [done|]. split; [done|]. split; [done|]. split; [done|].
  unfold load.
  change (String "000"%char "virtual:frontmatter-collection"
          =? resolvedVirtualModuleId virtualModuleId)%string with true.
  by destruct (refreshVirtualModuleContent collections debug
                 virtualModuleExports).
Qed.

(** X13.  [configResolved] touches one path at most: every other file is
    as it was, whether declarations are generated or not; and an empty
    [typesPath] counts as none, the declarations go to the default file. *)
Theorem X13_only_the_declaration_file `{Host}
    (collections : list FrontmatterCollectionConfig)
    (typesPath : option string) (generateDTS : bool) (root path : string)
    (fs : gmap string string) :
  path ≠ declarationFullPath typesPath root →
  configResolved collections typesPath generateDTS root fs !! path
  = fs !! path
  ∧ configResolved collections (Some "") generateDTS root fs
    = configResolved collections None generateDTS root fs
  ∧ declarationFullPath None root
    = path_join root "frontmatter-collection.d.ts".
Proof.
  intros Hne. unfold configResolved. split; [|done].
  destruct generateDTS; simpl; [|done]. by rewrite lookup_insert_ne.
Qed.

Lemma X13_only_the_declaration_file_witness :
  configResolved (H := Fixture.host) [Fixture.posts] (Some "types/fm.d.ts")
    true "/project" {["/project/package.json" := "{}"]}
    !! "/project/package.json"
  = ({["/project/package.json" := "{}"]} : gmap string string)
      !! "/project/package.json"
  ∧ configResolved (H := Fixture.host) [Fixture.posts] (Some "") true
      "/project" {["/project/package.json" := "{}"]}
    = configResolved (H := Fixture.host) [Fixture.posts] None true
        "/project" {["/project/package.json" := "{}"]}
  ∧ declarationFullPath (H := Fixture.host) None "/project"
    = path_join (Host := Fixture.host) "/project"
        "frontmatter-collection.d.ts".
Proof.
  apply (X13_only_the_declaration_file (H := Fixture.host) [Fixture.posts]
           (Some "types/fm.d.ts") true "/project" "/project/package.json").
  by vm_compute.
Defined.

(** X14.  The text of the declaration file is made of the names and the
    schemas of the collections that have a schema, in their order, and of
    nothing else: collections without a schema leave no trace in it, and
    [include], [ignore], [sort], [filter] and [parseFrontMatter] do not
    matter. *)
Theorem X14_declarations_from_names_and_schemas `{Host}
    (collections collections' : list FrontmatterCollectionConfig) :
  omap (λ c, sch ← schema c; Some (name c, sch)) collections
  = omap (λ c, sch ← schema c; Some (name c, sch)) collections' →
  ambiantDeclarationsString collections
  = ambiantDeclarationsString collections'.
Proof.
  intros Heq. unfold ambiantDeclarationsString.
  rewrite !ambientDeclarations_loop_spec. simpl.
  assert (∀ cs : list FrontmatterCollectionConfig,
            omap (λ c, sch ← schema c;
                       Some ("export const " +:+ name c +:+ ": "
                             +:+ printNode (zodToTs sch (name c)) +:+ "[];"))
              cs
            = (λ p : string * ZodSchema,
                 "export const " +:+ p.1 +:+ ": "
                 +:+ printNode (zodToTs p.2 p.1) +:+ "[];")
              <$> omap (λ c, sch ← schema c; Some (name c, sch)) cs) as Hmap.
  { intros cs. rewrite list_fmap_omap.
    apply list_omap_ext, Forall_Forall2_diag, Forall_forall.
    intros c _. by destruct (schema c). }
  by rewrite !Hmap, Heq.
Qed.

Lemma X14_declarations_witness :
  ambiantDeclarationsString (H := Fixture.host) [Fixture.posts; Fixture.titles]
  = ambiantDeclarationsString (H := Fixture.host)
      [Fixture.empty;
       set_sort (Some Fixture.dateDescending)
         (set_parseFrontMatter (Some Fixture.titleOnly) Fixture.posts)].
Proof.
  apply (X14_declarations_from_names_and_schemas (H := Fixture.host)).
  reflexivity.
Defined.

(** X15.  [handleHotUpdate] never adds or removes a node of the module
    graph and never changes the [url] of one; a node that was stale stays
    stale; and a second notification for the same file changes nothing
    more. *)
Theorem X15_hot_update_keeps_the_graph (server : ViteDevServer)
    (file : string) (modules : list string) (id : string) :
  let server' := (handleHotUpdate server file modules).1 in
  dom (moduleGraph server') = dom (moduleGraph server)
  ∧ url <$> getModuleById server' id = url <$> getModuleById server id
  ∧ is_stale server id || is_stale server' id = is_stale server' id
  ∧ handleHotUpdate server' file modules = (server', modules).
Proof.
  intros server'. subst server'.
  destruct (endsWith file ".mdx") eqn:Hends.
  2:{ unfold handleHotUpdate. rewrite !Hends. simpl.
      by rewrite ?Hends, orb_diag. }
  destruct (getModuleById server (resolvedVirtualModuleId virtualModuleId))
    as [node|] eqn:Hnode.
  2:{ unfold handleHotUpdate. rewrite !Hends, !Hnode. simpl.
      by rewrite ?Hends, ?Hnode, orb_diag. }
  assert (handleHotUpdate server file modules
          = (invalidateModule server
               (resolvedVirtualModuleId virtualModuleId), modules)) as ->.
  { unfold handleHotUpdate. by rewrite Hends, Hnode. }
  simpl. unfold is_stale, getModuleById, invalidateModule in *. simpl.
  split; [apply dom_alter_L|]. split; [|split].
  - rewrite lookup_alter. case_decide; [subst; by rewrite Hnode|done].
  - rewrite lookup_alter. case_decide; [subst; rewrite Hnode; simpl|].
    + apply orb_true_r.
    + apply orb_diag.
  - unfold handleHotUpdate, getModuleById. rewrite Hends. simpl.
    rewrite lookup_alter_eq, Hnode. simpl.
    unfold invalidateModule. simpl. f_equal. f_equal.
    apply map_eq. intros k. rewrite !lookup_alter.
    repeat case_decide; try done. by rewrite Hnode.
Qed.

(** ** The calls of the contract *)

Lemma collect_file_contract_calls `{Host} (debug : bool)
    collection process entries file data :
  contract collection = Some process →
  metadata file = Some data →
  contract_calls (collect_file debug collection entries file).1
  = [data ∪ {["filePath" := JString file]}].
Proof.
  intros Hc Hm. apply metadata_Some in Hm as (text & Hr & Hm).
  unfold collect_file, call, console_log, mbind, M_bind, mret, M_ret.
  rewrite Hr, Hm. simpl. unfold contract in Hc.
  destruct debug; simpl;
    destruct (schema collection) as [sch|]; simplify_eq/=.
  all: try (destruct (parseFrontMatter collection) as [pf|]; simplify_eq/=).
  all: unfold try_catch, call; simpl.
  all: try (destruct (parse sch _) as [entry|error]; simpl; [done|];
            by destruct (report_parse_error_run file error)
              as (args & -> & _)).
  all: destruct (process _) as [entry|error]; simpl; [done|];
    by destruct (report_parse_error_run file error) as (args & -> & _).
Qed.

(** X16.  When [collectFrontmatterEntries] returns, the contract was called
    exactly once for each matched file, in the order of the files, each
    time with the metadata block of that file and its [filePath]: no file
    is skipped and none is parsed twice. *)
Theorem X16_one_contract_call_per_file `{Host} (debug : bool)
    (collection : FrontmatterCollectionConfig) (out : list Entry) :
  (collectFrontmatterEntries debug collection).2 = Return out →
  Some <$> contract_calls (collectFrontmatterEntries debug collection).1
  = (λ file, data ← metadata file;
             Some (data ∪ {["filePath" := JString file]}))
    <$> globSync (globsafe (include collection)) (ignore collection).
Proof.
  intros Hrun.
  destruct (collectFrontmatterEntries_returns debug collection out Hrun)
    as (process & Hc & Hmeta & _).
  rewrite collectFrontmatterEntries_unfold by by eexists.
  assert (∀ files entries,
            Forall (λ file, is_Some (metadata file)) files →
            Some <$> contract_calls
                       (for_each_file debug collection files entries).1
            = (λ file, data ← metadata file;
                       Some (data ∪ {["filePath" := JString file]}))
              <$> files) as Hloop.
  { intros files entries Hall. revert entries.
    induction Hall as [|file files [data Hm] _ IH]; intros entries; [done|].
    simpl. rewrite bind_run.
    destruct (collect_file_run debug collection process entries file data
                Hc Hm) as (t1 & Hrun1 & _).
    pose proof (collect_file_contract_calls debug collection process entries
                  file data Hc Hm) as Hcalls.
    rewrite Hrun1 in *. simpl in *. unfold contract_calls in *.
    rewrite omap_app, Hcalls, Hm. simpl. f_equal. apply IH. }
  specialize (Hloop _ [] Hmeta).
  destruct (for_each_file debug collection _ []) as [t [entries|e]];
    simpl in *; [|done].
  unfold contract_calls in *. simpl. rewrite omap_app. simpl.
  by rewrite app_nil_r.
Qed.

Lemma X16_one_contract_call_per_file_witness :
  Some <$> contract_calls
             (collectFrontmatterEntries (H := Fixture.host) true
                Fixture.posts).1
  = (λ file, data ← metadata (H := Fixture.host) file;
             Some (data ∪ {["filePath" := JString file]}))
    <$> globSync (Host := Fixture.host) (globsafe "posts/*.mdx") None.
Proof.
  apply (X16_one_contract_call_per_file (H := Fixture.host) true Fixture.posts
           [Fixture.entryA; Fixture.entryB; Fixture.entryC]).
  by vm_compute.
Defined.

(** ** Sorting with a comparator that is consistent on the entries *)

Section sorting_on.
Variable comparefn : Entry → Entry → Z.
Variable S : list Entry.
Hypothesis consistent : consistent_on comparefn S.

Lemma gt_flip_on (a b : Entry) :
  a ∈ S → b ∈ S → comparefn a b > 0 → comparefn b a < 0.
Proof.
  intros Ha Hb Hab.
  destruct (Z.lt_trichotomy (comparefn b a) 0) as [|[Heq|Hgt]]; [done| |].
  - apply (on_sym _ _ consistent) in Heq; [lia|done|done].
  - pose proof (on_trans_gt _ _ consistent a b a Ha Hb Ha Hab ltac:(lia)).
    pose proof (on_refl _ _ consistent a Ha). lia.
Qed.

Lemma sort_insert_sorted_on (a : Entry) (l : list Entry) :
  a ∈ S → Forall (λ b, b ∈ S) l →
  Sorted (may_precede comparefn) l →
  Sorted (may_precede comparefn) (sort_insert comparefn a l).
Proof.
  intros Ha Hl Hsorted. induction Hsorted as [|b l Hs IH Hhd]; simpl.
  - by repeat constructor.
  - apply Forall_cons in Hl as [Hb Hl].
    destruct (Z.gtb_spec (comparefn a b) 0) as [Hgt|Hle].
    + assert (comparefn b a < 0) by (apply gt_flip_on; [done|done|lia]).
      constructor; [by apply IH|].
      destruct l as [|c l]; simpl in *.
      * constructor. unfold may_precede. lia.
      * destruct (comparefn a c >? 0).
        -- constructor. by inversion Hhd.
        -- constructor. unfold may_precede. lia.
    + constructor; [by constructor|]. constructor. unfold may_precede. lia.
Qed.

Lemma Array_sort_sorted_on (l : list Entry) :
  Forall (λ b, b ∈ S) l →
  Sorted (may_precede comparefn) (Array_sort comparefn l).
Proof.
  induction 1 as [|a l Ha Hl IH]; simpl; [constructor|].
  apply sort_insert_sorted_on; [done| |done].
  by rewrite Array_sort_perm.
Qed.

Lemma ties_sort_insert_on (x a : Entry) (l : list Entry) :
  x ∈ S → a ∈ S → Forall (λ b, b ∈ S) l →
  ties comparefn x (sort_insert comparefn a l) = ties comparefn x (a :: l).
Proof.
  intros Hx Ha Hl. unfold ties.
  induction Hl as [|b l Hb Hl IH]; simpl; [done|].
  destruct (Z.gtb_spec (comparefn a b) 0) as [Hgt|Hle]; [|done].
  simpl in *. rewrite IH.
  destruct (Z.eqb_spec (comparefn x a) 0) as [Hxa|];
    destruct (Z.eqb_spec (comparefn x b) 0) as [Hxb|]; try done.
  apply (on_sym _ _ consistent) in Hxa; [|done|done].
  pose proof (on_trans_eq _ _ consistent a x b Ha Hx Hb Hxa Hxb). lia.
Qed.

Lemma Array_sort_stable_on (x : Entry) (l : list Entry) :
  x ∈ S → Forall (λ b, b ∈ S) l →
  ties comparefn x (Array_sort comparefn l) = ties comparefn x l.
Proof.
  intros Hx. induction 1 as [|a l Ha Hl IH]; simpl; [done|].
  rewrite ties_sort_insert_on; [|done|done|by rewrite Array_sort_perm].
  unfold ties in *. simpl. by rewrite IH.
Qed.
End sorting_on.

(** The comparator of the docstring is consistent on entries that all have
    a date; an entry without one does not even compare equal to itself
    ([docstringSort_undated]). *)
Lemma docstringSort_consistent_on (S : list Entry) :
  Forall (λ entry, is_Some (Readme.getTime entry)) S →
  consistent_on Readme.docstringSort S.
Proof.
  intros Hdated. rewrite Forall_forall in Hdated.
  split; unfold Readme.docstringSort.
  - intros a [x ->]%Hdated. rewrite Z.eqb_refl.
    by destruct (Z.gtb_spec x x); [lia|].
  - intros a b [x ->]%Hdated [y ->]%Hdated.
    destruct (Z.gtb_spec x y), (Z.eqb_spec x y), (Z.gtb_spec y x),
      (Z.eqb_spec y x); lia.
  - intros a b c [x ->]%Hdated [y ->]%Hdated [z ->]%Hdated.
    destruct (Z.gtb_spec x y), (Z.eqb_spec x y), (Z.gtb_spec y z),
      (Z.eqb_spec y z), (Z.gtb_spec x z), (Z.eqb_spec x z); lia.
  - intros a b c [x ->]%Hdated [y ->]%Hdated [z ->]%Hdated.
    destruct (Z.gtb_spec x y), (Z.eqb_spec x y), (Z.gtb_spec y z),
      (Z.eqb_spec y z), (Z.gtb_spec x z), (Z.eqb_spec x z); lia.
  - intros a b c [x ->]%Hdated [y ->]%Hdated [z ->]%Hdated.
    destruct (Z.gtb_spec x y), (Z.eqb_spec x y), (Z.gtb_spec y z),
      (Z.eqb_spec y z), (Z.gtb_spec x z), (Z.eqb_spec x z); lia.
Qed.

Example docstringSort_undated :
  Readme.docstringSort (JObject [("title", JString "A")])
    (JObject [("title", JString "A")]) = 1.
Proof. reflexivity. Qed.

(** ** The sorted entries *)

(** C7 (counterexample).  The claim: with any [sort] comparator, no entry
    of the output stands directly in front of one the comparator wants
    before it.  With [sort: () => 1] the posts of the fixture are returned,
    all three, and in no order of theirs is that so: the comparator wants
    every entry behind every other. *)
Lemma C7_inconsistent_comparator_is_never_satisfied :
  ∃ out,
    (collectFrontmatterEntries (H := Fixture.host) false
       (set_sort (Some (λ _ _, 1)) Fixture.posts)).2 = Return out
    ∧ out ≡ₚ [Fixture.entryA; Fixture.entryB; Fixture.entryC]
    ∧ ∀ out', out' ≡ₚ [Fixture.entryA; Fixture.entryB; Fixture.entryC] →
        ¬ adjacent_in_order (λ _ _, 1) out'.
Proof.
  exists [Fixture.entryC; Fixture.entryB; Fixture.entryA].
  split; [by vm_compute|]. split.
  - by rewrite (Permutation_swap Fixture.entryC Fixture.entryB),
      (Permutation_swap Fixture.entryC Fixture.entryA),
      (Permutation_swap Fixture.entryB Fixture.entryA).
  - intros out' Hperm Hadj. apply Permutation_length in Hperm.
    destruct out' as [|a [|b rest]]; [done|done|].
    by apply (Hadj 0%nat a b).
Qed.

(** C7 (amended).  When the [sort] comparator of the collection is a
    consistent comparison function on the entries of the collection, the
    entries returned are those of the same collection without [sort],
    rearranged so that no entry stands directly in front of one the
    comparator wants before it, and so that the entries that compare equal
    to one of them are in the order they had before the sort. *)
Theorem C7_sort_is_ordered_and_stable `{Host} (debug : bool)
    (collection : FrontmatterCollectionConfig)
    (comparefn : Entry → Entry → Z) (out : list Entry) :
  sort collection = Some comparefn →
  (collectFrontmatterEntries debug collection).2 = Return out →
  consistent_on comparefn out →
  adjacent_in_order comparefn out
  ∧ ∃ pre,
      (collectFrontmatterEntries debug (set_sort None collection)).2
      = Return pre
      ∧ out ≡ₚ pre
      ∧ ∀ x, x ∈ out → ties comparefn x out = ties comparefn x pre.
Proof.
  intros Hsort Hrun Hcons.
  destruct (collectFrontmatterEntries_any debug collection) as (_ & _ & Hret).
  destruct (Hret out Hrun) as [[process Hc] Hmeta].
  destruct (collectFrontmatterEntries_run debug collection process Hc Hmeta)
    as (t' & Hrun' & _).
  destruct (collectFrontmatterEntries_run debug (set_sort None collection)
              process Hc Hmeta) as (t0 & Hrun0 & _).
  rewrite Hrun' in Hrun. simpl in Hrun. injection Hrun as <-.
  rewrite Hrun0. unfold sorted_by in *. rewrite Hsort in *. simpl.
  set (pre := omap (entry_of collection)
                (globSync (globsafe (include collection)) (ignore collection)))
    in *.
  assert (Forall (λ b, b ∈ Array_sort comparefn pre) pre) as Hin.
  { apply Forall_forall. intros b Hb. by rewrite Array_sort_perm. }
  split.
  - by apply Sorted_adjacent, (Array_sort_sorted_on _ _ Hcons).
  - exists pre. split; [done|]. split; [apply Array_sort_perm|].
    intros x Hx. by apply (Array_sort_stable_on _ _ Hcons).
Qed.

Lemma C7_sort_witness :
  adjacent_in_order Readme.docstringSort
    [Fixture.entryB; Fixture.entryA; Fixture.entryC]
  ∧ ∃ pre,
      (collectFrontmatterEntries (H := Fixture.host) false
         (set_sort None
            (set_sort (Some Readme.docstringSort) Fixture.posts))).2
      = Return pre
      ∧ [Fixture.entryB; Fixture.entryA; Fixture.entryC] ≡ₚ pre
      ∧ ∀ x, x ∈ [Fixture.entryB; Fixture.entryA; Fixture.entryC] →
          ties Readme.docstringSort x
            [Fixture.entryB; Fixture.entryA; Fixture.entryC]
          = ties Readme.docstringSort x pre.
Proof.
  apply (C7_sort_is_ordered_and_stable (H := Fixture.host) false
           (set_sort (Some Readme.docstringSort) Fixture.posts)
           Readme.docstringSort).
  - reflexivity.
  - by vm_compute.
  - apply docstringSort_consistent_on. repeat constructor; by eexists.
Defined.

(** ** The object handed to the contract *)

Section handing.
Context `{Host}.
Variable debug : bool.


End handing.



